(** * A shallow embedding of the FAISS vector store and the PDF RAG pipeline

    Sources embedded here:
    - [src/src/vector_store.py]  (class [FAISSVectorStore])
    - [src/pdf_rag_pipeline.py]  (class [PDFRAGPipeline])

    The numeric libraries the code calls (numpy, faiss) are modelled by the
    operations the code uses, over an abstract scalar type.  Ranking
    results need only that [<] on scores is asymmetric.  What normalisation
    computes is stated twice: in exact real arithmetic, where a scaled row
    has norm 1, and in float32 (IEEE 754 binary32, by the Standard Library's
    specification of floating-point arithmetic), where the squared norm of a
    row can overflow or underflow. *)

From Stdlib Require Import ZArith List Bool Lia Sorted Reals Lra SpecFloat.
From stdpp Require Import base gmap strings list.

Local Open Scope Z_scope.

(** ** Scalars *)

(** The operations numpy and faiss perform on array elements. *)
Class Scalar (F : Type) := {
  fzero : F;
  fone : F;
  fadd : F -> F -> F;
  fmul : F -> F -> F;
  fdiv : F -> F -> F;
  fsqrt : F -> F;
  feqb : F -> F -> bool;
  fltb : F -> F -> bool;
  (** the value a faiss result heap is initialised with: the most negative
      finite float *)
  flowest : F
}.

(** The one law of comparison the ranking proofs use.  It holds for IEEE
    floats too, NaN included. *)
Class ScalarOrder (F : Type) `{Scalar F} : Prop := {
  fltb_asym : forall a b : F, fltb a b = true -> fltb b a = false
}.

(** ** Python exceptions and results *)

Inductive exn : Type :=
  | AssertionError
  | IndexError
  | Exception (msg : string).

Inductive outcome (A : Type) : Type :=
  | Ok (a : A)
  | Raise (e : exn).
Arguments Ok {A} a.
Arguments Raise {A} e.

#[global] Instance outcome_ret : MRet outcome := fun _ a => Ok a.

#[global] Instance outcome_bind : MBind outcome := fun _ _ f m =>
  match m with
  | Ok a => f a
  | Raise e => Raise e
  end.

(** [[f(x) for x in l]] where [f] may raise: the first exception escapes. *)
Fixpoint omap {A B} (f : A -> outcome B) (l : list A) : outcome (list B) :=
  match l with
  | [] => Ok []
  | x :: l' => y ← f x; ys ← omap f l'; Ok (y :: ys)
  end.

(** [l[i]] on a Python list: a negative index counts from the end. *)
Definition py_getitem {A} (l : list A) (i : Z) : outcome A :=
  let n := Z.of_nat (length l) in
  let j := if i <? 0 then i + n else i in
  if (0 <=? j) && (j <? n) then
    match l !! Z.to_nat j with
    | Some x => Ok x
    | None => Raise IndexError
    end
  else Raise IndexError.

(** ** numpy and faiss on rows of scalars *)

Section Numeric.
Context {F : Type} `{Scalar F}.

(** A 2-D array of shape (n, d) is the list of its n rows.  A list of
    rows does not record the width of an array without rows: the empty
    list stands for the array of shape (0, d) whose width d is the one the
    index it is given to asks for.  Arrays of one dimension (as
    [np.array([])], of shape (0,)) and an empty array of another width are
    not modelled; on them [add_embeddings] raises. *)
Definition vector := list F.
Definition matrix := list vector.

(** faiss [fvec_norm_L2sqr]: the sum of the squares of a row. *)
Fixpoint fvec_norm_L2sqr (v : vector) : F :=
  match v with
  | [] => fzero
  | x :: v' => fadd (fmul x x) (fvec_norm_L2sqr v')
  end.

(** faiss [fvec_inner_product]. *)
Fixpoint fvec_inner_product (q v : vector) : F :=
  match q, v with
  | a :: q', b :: v' => fadd (fmul a b) (fvec_inner_product q' v')
  | _, _ => fzero
  end.

(** [np.linalg.norm] of one row. *)
Definition linalg_norm (v : vector) : F := fsqrt (fvec_norm_L2sqr v).

(** What faiss [fvec_renorm_L2] divides by on a row, if it divides at all:
    [if (nr > 0) { inv_nr = 1.0 / sqrtf(nr); ... }]. *)
Definition renorm_divisor (v : vector) : option F :=
  let nr := fvec_norm_L2sqr v in
  if fltb fzero nr then Some (fsqrt nr) else None.

(** faiss [fvec_renorm_L2] on one row: a row whose squared norm is not
    positive is left as it is. *)
Definition fvec_renorm_L2 (v : vector) : vector :=
  match renorm_divisor v with
  | Some sqrt_nr =>
      let inv_nr := fdiv fone sqrt_nr in
      map (fun x => fmul x inv_nr) v
  | None => v
  end.

(** [faiss.normalize_L2(x)]: every row renormalised in place. *)
Definition normalize_L2 (x : matrix) : matrix := map fvec_renorm_L2 x.

(** The divisor of the manual fallback of [add_embeddings]:
    [norms[norms == 0] = 1]. *)
Definition fallback_divisor (v : vector) : F :=
  let n := linalg_norm v in
  if feqb n fzero then fone else n.

(** [embeddings / norms] on one row. *)
Definition fallback_normalize_row (v : vector) : vector :=
  let n := fallback_divisor v in
  map (fun x => fdiv x n) v.

(** What the manual fallback of [search] divides by, if it divides at
    all: [if norm > 0: ...]. *)
Definition query_divisor (q : vector) : option F :=
  let norm := linalg_norm q in
  if fltb fzero norm then Some norm else None.

(** The manual fallback of [search]: [if norm > 0: q = q / norm]. *)
Definition fallback_normalize_query (q : vector) : vector :=
  match query_divisor q with
  | Some norm => map (fun x => fdiv x norm) q
  | None => q
  end.

(** *** [faiss.IndexFlatIP] *)

Record IndexFlatIP : Type := {
  d : nat;
  xb : matrix
}.

Definition ntotal (ix : IndexFlatIP) : nat := length (xb ix).

(** [index.add(x)]: the wrapper asserts [x.shape[1] == self.d], then
    appends the rows.  All rows of an array have the width [x.shape[1]];
    of a list of rows every row is tested, and the list without rows passes
    as the array of shape (0, d) does. *)
Definition IndexFlatIP_add (ix : IndexFlatIP) (x : matrix)
  : outcome IndexFlatIP :=
  if forallb (fun v => Nat.eqb (length v) (d ix)) x then
    Ok {| d := d ix; xb := xb ix ++ x |}
  else Raise AssertionError.

(** Descending insertion by score; among equal scores the element
    inserted stays in front. *)
Fixpoint insert_desc (x : F * Z) (l : list (F * Z)) : list (F * Z) :=
  match l with
  | [] => [x]
  | y :: l' =>
      if fltb (fst x) (fst y) then y :: insert_desc x l' else x :: y :: l'
  end.

Definition sort_desc (l : list (F * Z)) : list (F * Z) :=
  foldr insert_desc [] l.

(** The score of every stored row against the query, with its position. *)
Definition scan (xs : matrix) (q : vector) : list (F * Z) :=
  imap (fun i v => (fvec_inner_product q v, Z.of_nat i)) xs.

(** The k best (score, label) pairs of a brute-force scan; result slots
    that no stored row fills keep the heap's initial content: score
    [flowest], label [-1].  Which of several rows of equal score faiss
    returns, and in which order, follows from the layout of its result
    heap (of two rows of equal score it returns the one stored last
    first); here the row stored first comes first.  Nothing below depends
    on the order among equal scores. *)
Definition knn_inner_product (xs : matrix) (q : vector) (k : nat)
  : list (F * Z) :=
  let top := take k (sort_desc (scan xs q)) in
  top ++ replicate (k - length top)%nat (flowest, -1).

(** [index.search(x, k)] for a single query row: the wrapper asserts
    [x.shape[1] == self.d] and [k > 0]; returns (D[0], I[0]).  The wrapper
    allocates the k result slots with numpy, which raises for a [k] the
    machine cannot hold; that failure is not modelled, and what is proved
    below for [k] beyond the number of stored rows is proved for [k] below
    100, where faiss selects with a result heap. *)
Definition IndexFlatIP_search (ix : IndexFlatIP) (q : vector) (k : Z)
  : outcome (list F * list Z) :=
  if negb (Nat.eqb (length q) (d ix)) then Raise AssertionError
  else if negb (0 <? k) then Raise AssertionError
  else
    let r := knn_inner_product (xb ix) q (Z.to_nat k) in
    Ok (map fst r, map snd r).

End Numeric.

(** ** The configuration module

    [config/config.py] is not among the sources: its three constants are a
    parameter of the model. *)
Record Config : Type := {
  VECTOR_DIMENSION : nat;
  TOP_K_RESULTS : Z;
  FAISS_INDEX_PATH : string
}.

(** ** [FAISSVectorStore] *)

Section VectorStore.
Context {F : Type} `{Scalar F}.

(** Whether [faiss.normalize_L2] raises on this installation (the
    "compatibility issue with newer FAISS/NumPy versions" the code
    guards against with [try]/[except]). *)
Variable normalize_L2_raises : bool.

Record FAISSVectorStore : Type := {
  dimension : nat;
  index : option (@IndexFlatIP F);
  texts : list string;
  index_path : string
}.

(** [__init__] *)
Definition new_store (cfg : Config) : FAISSVectorStore :=
  {| dimension := VECTOR_DIMENSION cfg;
     index := None;
     texts := [];
     index_path := FAISS_INDEX_PATH cfg |}.

Definition set_index (s : FAISSVectorStore) (ix : IndexFlatIP)
  : FAISSVectorStore :=
  {| dimension := dimension s;
     index := Some ix;
     texts := texts s;
     index_path := index_path s |}.

Definition set_texts (s : FAISSVectorStore) (ts : list string)
  : FAISSVectorStore :=
  {| dimension := dimension s;
     index := index s;
     texts := ts;
     index_path := index_path s |}.

(** [self.index = None] *)
Definition clear_index (s : FAISSVectorStore) : FAISSVectorStore :=
  {| dimension := dimension s;
     index := None;
     texts := texts s;
     index_path := index_path s |}.

(** [create_index] *)
Definition create_index (s : FAISSVectorStore) : FAISSVectorStore :=
  set_index s {| d := dimension s; xb := [] |}.

(** The [try]/[except] block of [add_embeddings]. *)
Definition normalize_embeddings (embeddings : matrix) : matrix :=
  if normalize_L2_raises then map fallback_normalize_row embeddings
  else normalize_L2 embeddings.

(** The [try]/[except] block of [search]. *)
Definition normalize_query (q : vector) : vector :=
  if normalize_L2_raises then fallback_normalize_query q
  else fvec_renorm_L2 q.

(** [add_embeddings]: the store after the call, and whether the call
    raised.  An index created on the way stays created when [index.add]
    raises; [texts.extend] is reached only when it does not. *)
Definition add_embeddings (s : FAISSVectorStore)
    (embeddings : matrix) (new_texts : list string)
  : outcome () * FAISSVectorStore :=
  let s1 := match index s with
            | None => create_index s
            | Some _ => s
            end in
  let ix := match index s with
            | None => {| d := dimension s; xb := [] |}
            | Some ix => ix
            end in
  let embeddings' := normalize_embeddings embeddings in
  match IndexFlatIP_add ix embeddings' with
  | Raise e => (Raise e, s1)
  | Ok ix' => (Ok (), set_texts (set_index s1 ix') (texts s1 ++ new_texts))
  end.

(** [search]: (similar_texts, similarity_scores). *)
Definition search (s : FAISSVectorStore) (query_embedding : vector) (k : Z)
  : outcome (list string * list F) :=
  match index s with
  | None => Ok ([], [])
  | Some ix =>
      if Nat.eqb (ntotal ix) 0 then Ok ([], [])
      else
        let q := normalize_query query_embedding in
        '(scores, indices) ← IndexFlatIP_search ix q k;
        similar_texts ←
          omap (py_getitem (texts s))
               (filter (fun idx => idx < Z.of_nat (length (texts s)))
                       indices);
        Ok (similar_texts, scores)
  end.

(** *** Persistence *)

(** What a file on disk holds.  [NullIndexFile] is what
    [faiss.write_index] writes when it is given no index. *)
Inductive file : Type :=
  | IndexFile (ix : @IndexFlatIP F)
  | NullIndexFile
  | PickleFile (ts : list string)
  | OtherFile (content : list Byte.byte).

(** [faiss.read_index]: the index the file holds, [None] for the file
    written for no index. *)
Definition read_index (f : file) : outcome (option IndexFlatIP) :=
  match f with
  | IndexFile ix => Ok (Some ix)
  | NullIndexFile => Ok None
  | _ => Raise (Exception "read_index")
  end.

(** [pickle.load] of the texts file *)
Definition pickle_load (f : file) : outcome (list string) :=
  match f with
  | PickleFile ts => Ok ts
  | _ => Raise (Exception "pickle.load")
  end.

Definition index_file (filepath : string) : string := filepath +:+ ".index".
Definition texts_file (filepath : string) : string :=
  filepath +:+ "_texts.pkl".

(** What [faiss.write_index(self.index, ...)] writes: [self.index] is not
    tested, and for [None] faiss writes the file of no index. *)
Definition write_index (ix : option IndexFlatIP) : file :=
  match ix with
  | Some ix => IndexFile ix
  | None => NullIndexFile
  end.

(** [save_index]; directories and failures of the disk are not modelled,
    so the call returns. *)
Definition save_index (s : FAISSVectorStore) (filepath : option string)
    (fs : gmap string file) : outcome () * gmap string file :=
  let filepath := default (index_path s) filepath in
  let fs1 := <[index_file filepath := write_index (index s)]> fs in
  let fs2 := <[texts_file filepath := PickleFile (texts s)]> fs1 in
  (Ok (), fs2).

(** [load_index]: the returned flag and the store after the call.  Every
    exception of the [try] block is caught; [self.index] is assigned before
    the texts are read, and [self.texts] before the closing [print] reads
    [self.index.ntotal], which raises when [read_index] returned [None]. *)
Definition load_index (s : FAISSVectorStore) (filepath : option string)
    (fs : gmap string file) : bool * FAISSVectorStore :=
  let filepath := default (index_path s) filepath in
  match fs !! index_file filepath, fs !! texts_file filepath with
  | Some fi, Some ft =>
      match read_index fi with
      | Raise _ => (false, s)
      | Ok loaded =>
          let s1 := match loaded with
                    | Some ix => set_index s ix
                    | None => clear_index s
                    end in
          match pickle_load ft with
          | Raise _ => (false, s1)
          | Ok ts =>
              match loaded with
              | Some _ => (true, set_texts s1 ts)
              | None => (false, set_texts s1 ts)
              end
          end
      end
  | _, _ => (false, s)
  end.

(** [get_stats]; the key [total_texts] is present only with an index. *)
Record StoreStats : Type := {
  total_embeddings : nat;
  stats_dimension : nat;
  total_texts : option nat
}.

Definition get_stats (s : FAISSVectorStore) : StoreStats :=
  match index s with
  | None =>
      {| total_embeddings := 0;
         stats_dimension := dimension s;
         total_texts := None |}
  | Some ix =>
      {| total_embeddings := ntotal ix;
         stats_dimension := dimension s;
         total_texts := Some (length (texts s)) |}
  end.

End VectorStore.

(** ** [PDFRAGPipeline] *)

Section Pipeline.
Context {F : Type} `{Scalar F}.
Variable normalize_L2_raises : bool.
Variable cfg : Config.

(** The collaborators of the pipeline ([PDFProcessor.process_pdf_content],
    [EmbeddingGenerator], [GeminiLLM]); [src/embeddings.py], [src/llm.py]
    and [src/document_processor.py] are not among the sources, so the
    four calls are parameters.  Each either returns or raises. *)
Record Adapters : Type := {
  process_pdf_content : list Byte.byte -> outcome (list string);
  generate_embeddings : list string -> outcome (@matrix F);
  generate_single_embedding : string -> outcome (@vector F);
  generate_response : string -> list string -> outcome string
}.

Variable adapters : Adapters.

(** The calls the pipeline makes to its components, in order. *)
Inductive call : Type :=
  | CallProcessPdf (pdf : list Byte.byte)
  | CallGenerateEmbeddings (chunks : list string)
  | CallGenerateSingleEmbedding (question : string)
  | CallAddEmbeddings (chunks : list string)
  | CallSaveIndex (filepath : string)
  | CallSearch (k : Z)
  | CallGenerateResponse (question : string) (context : list string).

(** The pipeline object, the disk and the record of calls made. *)
Record World : Type := {
  vector_store : @FAISSVectorStore F;
  is_indexed : bool;
  disk : gmap string (@file F);
  calls : list call
}.

(** [__init__] on a given disk. *)
Definition new_pipeline (fs : gmap string file) : World :=
  {| vector_store := new_store cfg;
     is_indexed := false;
     disk := fs;
     calls := [] |}.

(** Computations that read and write the world and may raise; what was
    written before an exception stays written. *)
Definition M (A : Type) : Type := World -> outcome A * World.

#[local] Instance M_ret : MRet M := fun _ a w => (Ok a, w).

#[local] Instance M_bind : MBind M := fun _ _ f m w =>
  match m w with
  | (Ok a, w') => f a w'
  | (Raise e, w') => (Raise e, w')
  end.

Definition record_call (c : call) : M () := fun w =>
  (Ok (),
   {| vector_store := vector_store w;
      is_indexed := is_indexed w;
      disk := disk w;
      calls := calls w ++ [c] |}).

(** Return the value or re-raise the exception of a finished call. *)
Definition finish {A} (r : outcome A) : M A := fun w => (r, w).

Definition get_world : M World := fun w => (Ok w, w).

(** A call to a collaborator. *)
Definition invoke {A} (c : call) (r : outcome A) : M A :=
  _ ← record_call c; finish r.

Definition set_vector_store (s : FAISSVectorStore) : M () := fun w =>
  (Ok (),
   {| vector_store := s;
      is_indexed := is_indexed w;
      disk := disk w;
      calls := calls w |}).

Definition set_disk (fs : gmap string file) : M () := fun w =>
  (Ok (),
   {| vector_store := vector_store w;
      is_indexed := is_indexed w;
      disk := fs;
      calls := calls w |}).

Definition set_is_indexed (b : bool) : M () := fun w =>
  (Ok (),
   {| vector_store := vector_store w;
      is_indexed := b;
      disk := disk w;
      calls := calls w |}).

(** [self.vector_store.add_embeddings(embeddings, all_chunks)] *)
Definition store_add_embeddings (embeddings : matrix)
    (chunks : list string) : M () := fun w =>
  let '(r, s') :=
    add_embeddings normalize_L2_raises (vector_store w) embeddings chunks in
  (_ ← record_call (CallAddEmbeddings chunks);
   _ ← set_vector_store s';
   finish r) w.

(** [self.vector_store.save_index(filepath)] *)
Definition store_save_index (filepath : string) : M () := fun w =>
  let '(r, fs') := save_index (vector_store w) (Some filepath) (disk w) in
  (_ ← record_call (CallSaveIndex filepath);
   _ ← set_disk fs';
   finish r) w.

(** [self.vector_store.search(query_embedding, top_k)] *)
Definition store_search (query_embedding : vector) (top_k : Z)
  : M (list string * list F) := fun w =>
  invoke (CallSearch top_k)
    (search normalize_L2_raises (vector_store w) query_embedding top_k) w.

(** *** [ingest_pdf_documents] *)

Record IngestStats : Type := {
  total_documents : nat;
  total_chunks : nat;
  stats_total_embeddings : nat;
  vector_store_stats : StoreStats
}.

(** The [for] loop over the documents, with its two accumulators. *)
Fixpoint process_documents (pdf_contents : list (list Byte.byte))
    (all_chunks : list string) (total_chunks : nat)
  : M (list string * nat) :=
  match pdf_contents with
  | [] => mret (all_chunks, total_chunks)
  | pdf_content :: rest =>
      chunks ← invoke (CallProcessPdf pdf_content)
                      (process_pdf_content adapters pdf_content);
      process_documents rest (all_chunks ++ chunks)
                        (total_chunks + length chunks)%nat
  end.

Definition ingest_pdf_documents (pdf_contents : list (list Byte.byte))
  : M IngestStats :=
  '(all_chunks, total_chunks) ← process_documents pdf_contents [] 0%nat;
  embeddings ← invoke (CallGenerateEmbeddings all_chunks)
                      (generate_embeddings adapters all_chunks);
  _ ← store_add_embeddings embeddings all_chunks;
  _ ← store_save_index "pdf_faiss_index";
  _ ← set_is_indexed true;
  w ← get_world;
  mret {| total_documents := length pdf_contents;
          total_chunks := total_chunks;
          stats_total_embeddings := length embeddings;
          vector_store_stats := get_stats (vector_store w) |}.

(** *** [query] *)

(** The dictionary [query] returns: the keys [error] and
    [num_context_chunks] are present in some outcomes only. *)
Record QueryResult : Type := {
  response : string;
  context : list string;
  similarity_scores : list F;
  error : option string;
  num_context_chunks : option nat
}.

Definition not_indexed_result : QueryResult :=
  {| response := "Error: No PDF documents have been indexed yet. Please ingest PDF documents first.";
     context := [];
     similarity_scores := [];
     error := Some "No index available";
     num_context_chunks := None |}.

Definition no_context_result : QueryResult :=
  {| response := "I couldn't find any relevant information in the PDF documents to answer your question.";
     context := [];
     similarity_scores := [];
     error := Some "No relevant context found";
     num_context_chunks := None |}.

Definition query (question : string) (top_k : Z) : M QueryResult := fun w =>
  if negb (is_indexed w) then (Ok not_indexed_result, w)
  else
    (query_embedding ←
       invoke (CallGenerateSingleEmbedding question)
              (generate_single_embedding adapters question);
     '(similar_texts, similarity_scores) ←
       store_search query_embedding top_k;
     match similar_texts with
     | [] => mret no_context_result
     | _ :: _ =>
         response ← invoke (CallGenerateResponse question similar_texts)
                           (generate_response adapters question
                                              similar_texts);
         mret {| response := response;
                 context := similar_texts;
                 similarity_scores := similarity_scores;
                 error := None;
                 num_context_chunks := Some (length similar_texts) |}
     end) w.

(** *** [reset_pipeline] *)
Definition reset_pipeline : M () :=
  _ ← set_vector_store (new_store cfg);
  set_is_indexed false.

End Pipeline.

(** ** Three scalar instances *)

(** Integer scalars, to run the model.  On rows whose entries are 0 or 1
    and whose norm is 0 or 1, as in the examples below, each operation
    agrees with float32 arithmetic. *)
#[global] Instance Z_scalar : Scalar Z := {|
  fzero := 0;
  fone := 1;
  fadd := Z.add;
  fmul := Z.mul;
  fdiv := Z.div;
  fsqrt := Z.sqrt;
  feqb := Z.eqb;
  fltb := Z.ltb;
  flowest := - (2 ^ 128 - 2 ^ 104)
|}.

(** Exact real arithmetic, to state what normalisation computes when
    nothing is rounded, overflows or underflows.  It does not stand for
    float32, which is the next instance. *)
#[global] Instance R_scalar : Scalar R := {|
  fzero := 0%R;
  fone := 1%R;
  fadd := Rplus;
  fmul := Rmult;
  fdiv := Rdiv;
  fsqrt := sqrt;
  feqb := fun a b => if Req_dec_T a b then true else false;
  fltb := fun a b => if Rlt_dec a b then true else false;
  flowest := (- (2 ^ 128 - 2 ^ 104))%R
|}.

(** float32, the type of the arrays the code hands to faiss
    ([astype('float32')]): IEEE 754 binary32, with 24 bits of precision,
    infinities at exponent 128 and rounding to nearest even.  Sums are
    taken in the order of [fvec_norm_L2sqr] and [fvec_inner_product]
    above; faiss and numpy may add the same terms in another order. *)
#[global] Instance binary32_scalar : Scalar spec_float := {|
  fzero := S754_zero false;
  fone := SFone 24 128;
  fadd := SFadd 24 128;
  fmul := SFmul 24 128;
  fdiv := SFdiv 24 128;
  fsqrt := SFsqrt 24 128;
  feqb := SFeqb;
  fltb := SFltb;
  flowest := SFopp (SFmax_float 24 128)
|}.

(** ** The properties the claims speak of *)

Section Properties.
Context {F : Type} `{Scalar F}.

(** No score is followed by a greater one. *)
Definition descending (l : list F) : Prop :=
  Sorted (fun a b => fltb a b = false) l.

(** Every score is followed by a smaller one. *)
Definition strictly_descending (l : list F) : Prop :=
  Sorted (fun a b => fltb b a = true) l.

Definition desc_pairs (l : list (F * Z)) : Prop :=
  Sorted (fun a b => fltb (fst a) (fst b) = false) l.

(** The number of stored vectors, as [get_stats] reports it. *)
Definition size (s : @FAISSVectorStore F) : nat :=
  total_embeddings (get_stats s).

(** The dimension the index of the store is, or will be, configured
    with. *)
Definition index_dimension (s : @FAISSVectorStore F) : nat :=
  match index s with
  | None => dimension s
  | Some ix => d ix
  end.

(** The vectors the store holds. *)
Definition stored_vectors (s : @FAISSVectorStore F) : matrix :=
  match index s with
  | None => []
  | Some ix => xb ix
  end.

End Properties.


(** ** Example data, over the integer scalars *)

Definition example_cfg : Config :=
  {| VECTOR_DIMENSION := 2;
     TOP_K_RESULTS := 5;
     FAISS_INDEX_PATH := "faiss_index" |}.

(** A store that was given the same embedding for two chunks. *)
Definition twin_store : @FAISSVectorStore Z :=
  snd (add_embeddings false (new_store example_cfg)
                      [[1; 0]; [1; 0]] ["a"; "b"]).

(** Two vectors on disk beside a single text. *)
Definition mismatched_disk : gmap string (@file Z) :=
  <[texts_file "idx" := PickleFile ["only"]]>
    (<[index_file "idx" := IndexFile {| d := 2; xb := [[1; 0]; [0; 1]] |}]> ∅).

(** Collaborators that cut every document into two chunks, embed every
    chunk as the same unit vector and answer with a fixed string. *)
Definition example_adapters : @Adapters Z :=
  {| process_pdf_content := fun _ => Ok ["chunk one"; "chunk two"];
     generate_embeddings := fun chunks => Ok (map (fun _ => [1; 0]) chunks);
     generate_single_embedding := fun _ => Ok [1; 0];
     generate_response := fun _ _ => Ok "answer" |}.

(** Collaborators whose batch embedding returns a single vector whatever
    the batch. *)
Definition short_adapters : @Adapters Z :=
  {| process_pdf_content := fun _ => Ok ["chunk one"; "chunk two"];
     generate_embeddings := fun _ => Ok [[1; 0]];
     generate_single_embedding := fun _ => Ok [1; 0];
     generate_response := fun _ _ => Ok "answer" |}.

(** The first bytes of a PDF file. *)
Definition example_pdf : list Byte.byte :=
  [Byte.x25; Byte.x50; Byte.x44; Byte.x46].

Definition fresh_world : @World Z := new_pipeline example_cfg ∅.

(** The world after one document was ingested. *)
Definition indexed_world : @World Z :=
  snd (ingest_pdf_documents false example_adapters [example_pdf] fresh_world).

(** A row of norm 5 and a row of norm 0, over the reals. *)
Definition three_four : list R := [3%R; 4%R].
Definition zero_row : list R := [0%R; 0%R].



(** A second law of comparison, for the results that compare scores
    that are not neighbours: "not less than" is transitive.  It holds for
    scores that are not NaN. *)
Class ScalarTransitive (F : Type) `{Scalar F} : Prop := {
  fltb_not_lt_trans : forall a b c : F,
    fltb a b = false -> fltb b c = false -> fltb a c = false
}.

(** ** Histories of the pipeline, and what they keep *)

Section Histories.
Context {F : Type} `{Scalar F}.
Variable normalize_L2_raises : bool.
Variable cfg : Config.
Variable adapters : @Adapters F.

(** The world with further calls on record. *)
Definition with_calls (w : @World F) (cs : list call) : World :=
  {| vector_store := vector_store w;
     is_indexed := is_indexed w;
     disk := disk w;
     calls := calls w ++ cs |}.

(** The world after an ingestion call that went through: the store
    [add_embeddings] left, the files [save_index] wrote, the flag set. *)
Definition ingested (w : @World F) (s' : FAISSVectorStore)
    (cs : list call) : World :=
  {| vector_store := s';
     is_indexed := true;
     disk := snd (save_index s' (Some "pdf_faiss_index") (disk w));
     calls := calls w ++ cs |}.

(** The world after an ingestion call in which [index.add] raised. *)
Definition add_failed (w : @World F) (s' : FAISSVectorStore)
    (cs : list call) : World :=
  {| vector_store := s';
     is_indexed := is_indexed w;
     disk := disk w;
     calls := calls w ++ cs |}.

(** The three operations a client of [PDFRAGPipeline] can perform. *)
Inductive operation : Type :=
  | OpIngest (pdf_contents : list (list Byte.byte))
  | OpQuery (question : string) (top_k : Z)
  | OpReset.

(** The world after an operation, whether it returned or raised. *)
Definition perform (o : operation) (w : @World F) : World :=
  match o with
  | OpIngest pdf_contents =>
      snd (ingest_pdf_documents normalize_L2_raises adapters pdf_contents w)
  | OpQuery question top_k =>
      snd (query normalize_L2_raises adapters question top_k w)
  | OpReset => snd (reset_pipeline cfg w)
  end.

(** The world after a sequence of operations on a new pipeline. *)
Definition history (ops : list operation) (fs : gmap string file) : World :=
  fold_left (fun w o => perform o w) ops (new_pipeline cfg fs).

(** As many texts as vectors. *)
Definition consistent (s : @FAISSVectorStore F) : Prop :=
  length (texts s) = size s.

(** The store and its index have the configured dimension, and so has
    every stored vector. *)
Definition well_formed (s : @FAISSVectorStore F) : Prop :=
  dimension s = VECTOR_DIMENSION cfg /\
  index_dimension s = VECTOR_DIMENSION cfg /\
  Forall (fun v => length v = VECTOR_DIMENSION cfg) (stored_vectors s).

(** The two files of [pdf_faiss_index] hold the index and the texts of
    the store. *)
Definition persisted (w : @World F) : Prop :=
  exists ix,
    index (vector_store w) = Some ix /\
    disk w !! index_file "pdf_faiss_index" = Some (IndexFile ix) /\
    disk w !! texts_file "pdf_faiss_index"
    = Some (PickleFile (texts (vector_store w))).

(** An embedding call that returns one vector per chunk. *)
Definition count_contract : Prop :=
  forall chunks E,
    generate_embeddings adapters chunks = Ok E -> length E = length chunks.

End Histories.

(** ** [PDFProcessor] ([src/pdf_processor.py]) *)

Module PDFProcessor.
Section PDFProcessor.
Context {F : Type}.

(** PyMuPDF on the bytes of a document: the texts of its pages in page
    order ([fitz.open], then [load_page] and [get_text] per page), or the
    exception one of these raises. *)
Variable page_texts : list Byte.byte -> outcome (list string).

(** [DocumentProcessor.process_document]; [src/document_processor.py] is
    not among the sources. *)
Variable process_document : string -> outcome (list string).

(** Python's [str(e)]. *)
Variable str : exn -> string.

Definition newline : string := String (Ascii.ascii_of_nat 10) EmptyString.

(** [extract_text_from_pdf]: every exception of the [try] block is
    replaced by an [Exception] with the message of the original. *)
Definition extract_text_from_pdf (pdf_content : list Byte.byte)
  : outcome string :=
  match page_texts pdf_content with
  | Ok pages =>
      Ok (fold_left (fun text page => text +:+ (page +:+ newline)) pages "")
  | Raise e => Raise (Exception ("Error extracting text from PDF: " +:+ str e))
  end.

(** [process_pdf_content] *)
Definition process_pdf_content (pdf_content : list Byte.byte)
  : outcome (list string) :=
  text ← extract_text_from_pdf pdf_content;
  process_document text.

(** The collaborators of the pipeline, with this PDF processor in the
    place of the first. *)
Definition install (a : @Adapters F) : @Adapters F :=
  @Build_Adapters F process_pdf_content (generate_embeddings a)
                 (generate_single_embedding a) (generate_response a).

End PDFProcessor.
End PDFProcessor.

(** ** The request handlers ([src/api.py])

    A handler is modelled from its first statement to the response FastAPI
    sends for what it returns or raises; the validation of a request
    against its pydantic model happens before the handler and is not
    modelled.  The handlers share one pipeline object, the one of the
    world. *)

Module Api.
Section Api.
Context {F : Type} `{Scalar F}.
Variable normalize_L2_raises : bool.
Variable cfg : Config.
Variable adapters : @Adapters F.

(** What the body of a handler can raise. *)
Inductive raised : Type :=
  | PyException (e : exn)
  | KeyError (key : string)
  | HTTPException (status_code : nat) (detail : string).

(** Python's [str(e)]. *)
Variable str : raised -> string.

(** What the client receives: the returned body with status 200, or the
    status code and detail of the [HTTPException] that left the handler. *)
Inductive reply (A : Type) : Type :=
  | Returned (body : A)
  | Failed (status_code : nat) (detail : string).
Arguments Returned {A} body.
Arguments Failed {A} status_code detail.

Record UploadFile : Type := {
  filename : string;
  content_type : string;
  content : list Byte.byte
}.

(** [QueryRequest] with an integer [top_k] (5 when the request has
    none). *)
Record QueryRequest : Type := {
  question : string;
  top_k : Z
}.

Record QueryResponse : Type := {
  response : string;
  context : list string;
  similarity_scores : list F;
  num_context_chunks : nat
}.

Record IngestResponse : Type := {
  total_documents : nat;
  total_chunks : nat;
  total_embeddings : nat
}.

(** The loop of [ingest_pdf_documents] over the uploaded files. *)
Fixpoint read_uploads (files : list UploadFile)
    (pdf_contents : list (list Byte.byte))
  : raised + list (list Byte.byte) :=
  match files with
  | [] => inr pdf_contents
  | file :: rest =>
      if negb (String.eqb (content_type file) "application/pdf") then
        inl (HTTPException 400
               ("File " +:+ (filename file +:+ " is not a PDF")))
      else read_uploads rest (pdf_contents ++ [content file])
  end.

(** [POST /ingest-pdf].  The [HTTPException] of the loop is raised inside
    the [try] block, so [except Exception] catches it like any other. *)
Definition ingest_pdf_documents (files : list UploadFile) (w : @World F)
  : reply IngestResponse * World :=
  match read_uploads files [] with
  | inl e => (Failed 500 ("PDF document ingestion failed: " +:+ str e), w)
  | inr pdf_contents =>
      match ingest_pdf_documents normalize_L2_raises adapters pdf_contents w with
      | (Ok (Build_IngestStats documents chunks embeddings _), w') =>
          (Returned {| total_documents := documents;
                       total_chunks := chunks;
                       total_embeddings := embeddings |}, w')
      | (Raise e, w') =>
          (Failed 500 ("PDF document ingestion failed: "
                       +:+ str (PyException e)), w')
      end
  end.

(** [POST /query-pdf].  Here too the [HTTPException] with status 400 is
    raised inside the [try] block. *)
Definition query_pdf_pipeline (request : QueryRequest) (w : @World F)
  : reply QueryResponse * World :=
  match query normalize_L2_raises adapters (question request)
              (top_k request) w with
  | (Ok (Build_QueryResult answer texts scores err count), w') =>
      match err with
      | Some detail =>
          (Failed 500 ("Query processing failed: "
                       +:+ str (HTTPException 400 detail)), w')
      | None =>
          match count with
          | Some n =>
              (Returned {| response := answer;
                           context := texts;
                           similarity_scores := scores;
                           num_context_chunks := n |}, w')
          | None =>
              (Failed 500 ("Query processing failed: "
                           +:+ str (KeyError "num_context_chunks")), w')
          end
      end
  | (Raise e, w') =>
      (Failed 500 ("Query processing failed: " +:+ str (PyException e)), w')
  end.

(** [POST /reset-pdf] *)
Definition reset_pdf_pipeline (w : @World F) : reply string * World :=
  match reset_pipeline cfg w with
  | (Ok _, w') => (Returned "PDF Pipeline reset successfully", w')
  | (Raise e, w') =>
      (Failed 500 ("PDF Pipeline reset failed: " +:+ str (PyException e)), w')
  end.

End Api.
Arguments Returned {A} body.
Arguments Failed {A} status_code detail.
End Api.

(** ** Further example data *)

(** Collaborators that cannot process an empty document. *)
Definition picky_adapters : @Adapters Z :=
  {| process_pdf_content := fun pdf =>
       match pdf with
       | [] => Raise (Exception "empty document")
       | _ :: _ => Ok ["chunk one"; "chunk two"]
       end;
     generate_embeddings := fun chunks => Ok (map (fun _ => [1; 0]) chunks);
     generate_single_embedding := fun _ => Ok [1; 0];
     generate_response := fun _ _ => Ok "answer" |}.

(** Collaborators whose embedding calls raise. *)
Definition silent_adapters : @Adapters Z :=
  {| process_pdf_content := fun _ => Ok ["chunk one"; "chunk two"];
     generate_embeddings := fun _ => Raise (Exception "quota exceeded");
     generate_single_embedding := fun _ => Raise (Exception "quota exceeded");
     generate_response := fun _ _ => Ok "answer" |}.

(** Collaborators whose embeddings have three components. *)
Definition wide_adapters : @Adapters Z :=
  {| process_pdf_content := fun _ => Ok ["chunk one"; "chunk two"];
     generate_embeddings := fun chunks =>
       Ok (map (fun _ => [1; 0; 0]) chunks);
     generate_single_embedding := fun _ => Ok [1; 0; 0];
     generate_response := fun _ _ => Ok "answer" |}.

(** An index file beside a texts file that is no pickle. *)
Definition broken_disk : gmap string (@file Z) :=
  <[texts_file "idx" := OtherFile []]>
    (<[index_file "idx" := IndexFile {| d := 2; xb := [[1; 0]; [0; 1]] |}]> ∅).

(** The file faiss writes for no index, beside a text list. *)
Definition unindexed_disk : gmap string (@file Z) :=
  <[texts_file "idx" := PickleFile ["only"]]>
    (<[index_file "idx" := NullIndexFile]> ∅).

(** The world after an ingestion call without documents. *)
Definition empty_indexed_world : @World Z :=
  snd (ingest_pdf_documents false example_adapters [] fresh_world).

Definition example_ops : list operation :=
  [OpIngest [example_pdf];
   OpQuery "What is X?" 2;
   OpReset;
   OpIngest [example_pdf; example_pdf]].

Definition example_str : Api.raised -> string := fun _ => "error".

Definition pdf_upload : Api.UploadFile :=
  {| Api.filename := "a.pdf";
     Api.content_type := "application/pdf";
     Api.content := example_pdf |}.

Definition text_upload : Api.UploadFile :=
  {| Api.filename := "test.txt";
     Api.content_type := "text/plain";
     Api.content := [] |}.

(** An unreadable file declared as a PDF. *)
Definition empty_upload : Api.UploadFile :=
  {| Api.filename := "empty.pdf";
     Api.content_type := "application/pdf";
     Api.content := [] |}.

(** A PDF library that cannot open an empty file and reads two pages from
    any other, and a document processor with one chunk per document. *)
Definition example_page_texts (pdf : list Byte.byte)
  : outcome (list string) :=
  match pdf with
  | [] => Raise (Exception "cannot open empty document")
  | _ :: _ => Ok ["page one"; "page two"]
  end.

Definition example_process_document (text : string)
  : outcome (list string) := Ok [text].

Definition example_exn_str (e : exn) : string :=
  match e with
  | Exception msg => msg
  | _ => "error"
  end.

(** What the ingestion of the example document reports. *)
Definition example_stats : @IngestStats :=
  {| total_documents := 1;
     total_chunks := 2;
     stats_total_embeddings := 2;
     vector_store_stats :=
       {| total_embeddings := 2;
          stats_dimension := 2;
          total_texts := Some 2%nat |} |}.

(** * Lemmas and theorems *)

#[global] Instance Z_scalar_order : ScalarOrder Z.
Proof. split. intros a b. cbn. lia. Qed.

(** ** The ranking of [IndexFlatIP.search] *)

Section Ranking.
Context {F : Type} `{ScalarOrder F}.

Lemma insert_desc_perm (x : F * Z) (l : list (F * Z)) :
  insert_desc x l ≡ₚ x :: l.
Proof.
  induction l as [|y l IH]; simpl; [done|].
  destruct (fltb (fst x) (fst y)); [|done].
  rewrite IH. apply Permutation_swap.
Qed.

Lemma sort_desc_perm (l : list (F * Z)) : sort_desc l ≡ₚ l.
Proof.
  induction l as [|x l IH]; simpl; [done|].
  rewrite insert_desc_perm. by rewrite IH.
Qed.

Lemma sort_desc_length (l : list (F * Z)) :
  length (sort_desc l) = length l.
Proof. by rewrite sort_desc_perm. Qed.

Lemma insert_desc_hd (x a : F * Z) (l : list (F * Z)) :
  fltb (fst a) (fst x) = false ->
  HdRel (fun a b => fltb (fst a) (fst b) = false) a l ->
  HdRel (fun a b => fltb (fst a) (fst b) = false) a (insert_desc x l).
Proof.
  intros Hax Hl. destruct l as [|y l]; simpl.
  - by constructor.
  - destruct (fltb (fst x) (fst y)); constructor; [|done].
    by inversion Hl.
Qed.

Lemma insert_desc_sorted (x : F * Z) (l : list (F * Z)) :
  desc_pairs l -> desc_pairs (insert_desc x l).
Proof.
  unfold desc_pairs. induction l as [|y l IH]; simpl; intros Hs.
  - by repeat constructor.
  - destruct (fltb (fst x) (fst y)) eqn:Hxy.
    + inversion Hs as [|? ? Hl Hhd]; subst. constructor; [by apply IH|].
      apply insert_desc_hd; [|done]. by apply fltb_asym.
    + constructor; [done|]. by constructor.
Qed.

Lemma sort_desc_sorted (l : list (F * Z)) : desc_pairs (sort_desc l).
Proof.
  induction l as [|x l IH]; simpl; [constructor|].
  by apply insert_desc_sorted.
Qed.

Lemma desc_pairs_take (n : nat) (l : list (F * Z)) :
  desc_pairs l -> desc_pairs (take n l).
Proof.
  unfold desc_pairs. revert n. induction l as [|x l IH]; intros [|n] Hs;
    simpl; try constructor.
  - inversion Hs; subst. by apply IH.
  - inversion Hs as [|? ? Hl Hhd]; subst.
    destruct l as [|y l]; destruct n; simpl; constructor.
    by inversion Hhd.
Qed.

Lemma desc_pairs_scores (l : list (F * Z)) :
  desc_pairs l -> descending (map fst l).
Proof.
  unfold desc_pairs, descending.
  induction 1 as [|x l Hs IH Hhd]; simpl; constructor; [done|].
  destruct Hhd; simpl; by constructor.
Qed.

(** What the scan pairs: a position of the store and the score of the
    row stored there. *)
Lemma elem_of_scan (xs : matrix) (q : vector) (p : F * Z) :
  p ∈ scan xs q ->
  exists (n : nat) (v : vector),
    xs !! n = Some v /\ p = (fvec_inner_product q v, Z.of_nat n).
Proof.
  unfold scan. intros Hp.
  apply list_elem_of_lookup in Hp as [n Hn].
  rewrite list_lookup_imap in Hn.
  apply fmap_Some in Hn as (v & Hv & ->).
  by exists n, v.
Qed.

Lemma scan_length (xs : matrix) (q : vector) :
  length (scan xs q) = length xs.
Proof. unfold scan. by rewrite length_imap. Qed.

Lemma scan_labels (xs : matrix) (q : vector) :
  map snd (scan xs q) = map Z.of_nat (seq 0 (length xs)).
Proof.
  unfold scan. apply list_eq. intros i.
  rewrite !list_lookup_fmap, list_lookup_imap.
  destruct (decide (i < length xs)%nat) as [Hlt|Hge].
  - destruct (lookup_lt_is_Some_2 xs i Hlt) as [v Hv].
    rewrite Hv, lookup_seq_lt; done.
  - rewrite lookup_ge_None_2, lookup_seq_ge by lia. done.
Qed.

End Ranking.

(** ** Lemmas on the vector store *)

Section VectorStoreFacts.
Context {F : Type} `{ScalarOrder F}.
Variable normalize_L2_raises : bool.

Lemma fvec_renorm_L2_length (v : @vector F) :
  length (fvec_renorm_L2 v) = length v.
Proof.
  unfold fvec_renorm_L2. destruct (renorm_divisor v); [|done].
  by rewrite length_map.
Qed.

Lemma fallback_normalize_row_length (v : @vector F) :
  length (fallback_normalize_row v) = length v.
Proof. unfold fallback_normalize_row. by rewrite length_map. Qed.

Lemma normalize_query_length (q : @vector F) :
  length (normalize_query normalize_L2_raises q) = length q.
Proof.
  unfold normalize_query, fallback_normalize_query.
  destruct normalize_L2_raises.
  - destruct (query_divisor q); [|done]. by rewrite length_map.
  - apply fvec_renorm_L2_length.
Qed.

Lemma normalize_embeddings_length (E : @matrix F) :
  length (normalize_embeddings normalize_L2_raises E) = length E.
Proof.
  unfold normalize_embeddings, normalize_L2.
  destruct normalize_L2_raises; by rewrite length_map.
Qed.

(** Normalisation changes no row's width, so the width test of
    [index.add] sees the widths of the caller's rows. *)
Lemma normalize_embeddings_widths (n : nat) (E : @matrix F) :
  forallb (fun v => Nat.eqb (length v) n)
          (normalize_embeddings normalize_L2_raises E)
  = forallb (fun v => Nat.eqb (length v) n) E.
Proof.
  unfold normalize_embeddings, normalize_L2.
  destruct normalize_L2_raises; induction E as [|v E IH]; simpl; try done.
  - by rewrite fallback_normalize_row_length, IH.
  - by rewrite fvec_renorm_L2_length, IH.
Qed.

Lemma py_getitem_nat {A} (l : list A) (n : nat) (x : A) :
  l !! n = Some x -> py_getitem l (Z.of_nat n) = Ok x.
Proof.
  intros Hx. pose proof (lookup_lt_Some _ _ _ Hx) as Hlt.
  unfold py_getitem.
  replace (Z.of_nat n <? 0) with false by lia.
  replace (0 <=? Z.of_nat n) with true by lia.
  replace (Z.of_nat n <? Z.of_nat (length l)) with true by lia.
  simpl. by rewrite Nat2Z.id, Hx.
Qed.

Lemma knn_inner_product_within (xs : @matrix F) (q : vector) (k : nat) :
  (k <= length xs)%nat ->
  knn_inner_product xs q k = take k (sort_desc (scan xs q)).
Proof.
  intros Hk. unfold knn_inner_product.
  rewrite length_take, sort_desc_length, scan_length.
  replace (k - k `min` length xs)%nat with 0%nat by lia.
  simpl. by rewrite app_nil_r.
Qed.

(** Every pair the selection keeps is a stored position with the score
    of the row stored there. *)
Lemma top_from_scan (xs : @matrix F) (q : vector) (k : nat) :
  Forall (fun p => exists (n : nat) (v : vector),
              xs !! n = Some v /\ p = (fvec_inner_product q v, Z.of_nat n))
         (take k (sort_desc (scan xs q))).
Proof.
  apply Forall_take, Forall_forall. intros p Hp.
  apply (elem_of_scan xs q).
  by rewrite <- (sort_desc_perm (scan xs q)).
Qed.

Lemma top_labels_NoDup (xs : @matrix F) (q : vector) (k : nat) :
  NoDup (map snd (take k (sort_desc (scan xs q)))).
Proof.
  apply (sublist_NoDup _ (map snd (sort_desc (scan xs q)))).
  - rewrite (sort_desc_perm (scan xs q)), scan_labels.
    apply (NoDup_fmap_2 Z.of_nat), NoDup_seq.
  - apply fmap_sublist, sublist_take.
Qed.

(** Labels that are positions of the text list all pass the filter of
    [search] and are resolved to the text at that position. *)
Lemma resolve_labels (ts : list string) (xs : @matrix F) (q : vector)
    (r : list (F * Z)) :
  length ts = length xs ->
  Forall (fun p => exists (n : nat) (v : vector),
              xs !! n = Some v /\ p = (fvec_inner_product q v, Z.of_nat n))
         r ->
  exists (positions : list nat) (found : list string),
    map snd r = map Z.of_nat positions /\
    filter (fun idx => idx < Z.of_nat (length ts)) (map snd r) = map snd r /\
    omap (py_getitem ts) (map snd r) = Ok found /\
    Forall2 (fun n t => ts !! n = Some t) positions found /\
    Forall2 (fun n sc => exists v, xs !! n = Some v /\
                                   sc = fvec_inner_product q v)
            positions (map fst r).
Proof.
  intros Hlen. induction 1 as [|p r (n & v & Hv & ->) _ IH].
  - exists [], []. simpl. repeat split; constructor.
  - destruct IH as (ps & found & Hlab & Hfil & Hmap & Hts & Hsc).
    pose proof (lookup_lt_Some _ _ _ Hv) as Hn.
    destruct (lookup_lt_is_Some_2 ts n) as [t Ht]; [lia|].
    exists (n :: ps), (t :: found). simpl. repeat split.
    + by rewrite Hlab.
    + rewrite filter_cons_True by lia. by rewrite Hfil.
    + rewrite (py_getitem_nat _ _ _ Ht). simpl. by rewrite Hmap.
    + by constructor.
    + constructor; [by exists v|done].
Qed.

(** Whatever the length of the text list, labels that are not negative
    are filtered and resolved without an exception, to texts of the list. *)
Lemma resolve_filtered (ts : list string) (labels : list Z) :
  Forall (fun i => 0 <= i) labels ->
  exists found : list string,
    omap (py_getitem ts)
         (filter (fun idx => idx < Z.of_nat (length ts)) labels) = Ok found /\
    (length found <= length labels)%nat /\
    Forall (fun t => t ∈ ts) found.
Proof.
  induction 1 as [|i labels Hi _ IH].
  - exists []. repeat split; constructor.
  - destruct IH as (found & Hmap & Hlen & Hin).
    destruct (decide (i < Z.of_nat (length ts))) as [Hlt|Hge].
    + rewrite filter_cons_True by done.
      destruct (lookup_lt_is_Some_2 ts (Z.to_nat i)) as [t Ht]; [lia|].
      exists (t :: found). simpl.
      rewrite <- (Z2Nat.id i) at 1 by done.
      rewrite (py_getitem_nat _ _ _ Ht). simpl. rewrite Hmap.
      repeat split; [lia|]. constructor; [|done].
      by eapply list_elem_of_lookup_2.
    + rewrite filter_cons_False by done.
      exists found. repeat split; [done | simpl; lia | done].
Qed.

End VectorStoreFacts.

(** ** Claims on [search] *)

Section SearchClaims.
Context {F : Type} `{ScalarOrder F}.
Variable normalize_L2_raises : bool.

(** C1, as amended: for a query of the index's dimension and every [k]
    from 1 to the number of stored vectors, [search] returns at most
    [min(k, size)] texts, every one of them a stored chunk, and [k] scores
    in descending order (no score is followed by a greater one; equal
    scores may be adjacent).  On a store whose text list is as long as its
    vector count the texts are exactly [k] and the results come from [k]
    distinct positions of the store: each returned text is the text stored
    at its position and each returned score is the inner product of the
    normalised query with the vector stored at that position. *)
Theorem search_returns_top_k (s : @FAISSVectorStore F) (ix : IndexFlatIP)
    (q : vector) (k : Z) :
  index s = Some ix ->
  length q = d ix ->
  1 <= k <= Z.of_nat (ntotal ix) ->
  exists (similar_texts : list string) (scores : list F),
    search normalize_L2_raises s q k = Ok (similar_texts, scores) /\
    (length similar_texts <= Nat.min (Z.to_nat k) (size s))%nat /\
    length scores = Z.to_nat k /\
    descending scores /\
    Forall (fun t => t ∈ texts s) similar_texts /\
    (length (texts s) = ntotal ix ->
     length similar_texts = Z.to_nat k /\
     exists positions : list nat,
       NoDup positions /\
       Forall2 (fun n t => texts s !! n = Some t) positions similar_texts /\
       Forall2 (fun n sc =>
                  exists v, xb ix !! n = Some v /\
                            sc = fvec_inner_product
                                   (normalize_query normalize_L2_raises q) v)
               positions scores).
Proof.
  intros Hix Hq Hk. unfold ntotal in *.
  set (q' := normalize_query normalize_L2_raises q).
  set (r := take (Z.to_nat k) (sort_desc (scan (xb ix) q'))).
  assert (Hr : length r = Z.to_nat k).
  { unfold r. rewrite length_take, sort_desc_length, scan_length. lia. }
  pose proof (top_from_scan (xb ix) q' (Z.to_nat k)) as Htop. fold r in Htop.
  assert (Hnonneg : Forall (fun i => 0 <= i) (map snd r)).
  { apply Forall_fmap. eapply Forall_impl; [exact Htop|].
    intros p (n & v & _ & ->). simpl. lia. }
  destruct (resolve_filtered (texts s) (map snd r) Hnonneg)
    as (found & Hmap & Hlen & Hin).
  rewrite length_map, Hr in Hlen.
  assert (Hrun : search normalize_L2_raises s q k = Ok (found, map fst r)).
  { unfold search. rewrite Hix. unfold ntotal.
    destruct (Nat.eqb_spec (length (xb ix)) 0) as [Hz|_]; [lia|].
    unfold IndexFlatIP_search. fold q'.
    unfold q' at 1. rewrite normalize_query_length, Hq, Nat.eqb_refl.
    replace (0 <? k) with true by lia. simpl.
    rewrite knn_inner_product_within by lia. fold r.
    rewrite Hmap. done. }
  exists found, (map fst r). split; [exact Hrun|].
  split.
  { unfold size, get_stats. rewrite Hix. simpl. unfold ntotal. lia. }
  split; [by rewrite length_map|].
  split; [apply desc_pairs_scores, desc_pairs_take, sort_desc_sorted|].
  split; [exact Hin|].
  intros Hinv.
  destruct (resolve_labels (texts s) (xb ix) q' r Hinv Htop)
    as (positions & found' & Hlab & Hfil & Hmap' & Hts & Hsc).
  rewrite Hfil, Hmap' in Hmap. injection Hmap as ->.
  split.
  { rewrite <- (Forall2_length _ _ _ Hts).
    rewrite <- (length_map Z.of_nat), <- Hlab, length_map. done. }
  exists positions. split; [|done].
  apply (NoDup_fmap_1 Z.of_nat).
  change (NoDup (map Z.of_nat positions)). rewrite <- Hlab.
  apply top_labels_NoDup.
Qed.

(** C7: [search] on a store whose index was never created, or holds no
    vector, returns the pair of empty lists for every query and every [k];
    it raises nothing. *)
Theorem search_empty_index (s : @FAISSVectorStore F) (q : vector) (k : Z) :
  size s = 0%nat ->
  search normalize_L2_raises s q k = Ok ([], []).
Proof.
  unfold size, get_stats, search.
  destruct (index s) as [ix|]; simpl; [|done].
  intros ->. done.
Qed.

End SearchClaims.

Lemma search_returns_top_k_witness :
  index twin_store = Some {| d := 2; xb := [[1; 0]; [1; 0]] |} /\
  1 <= 2 <= Z.of_nat (size twin_store) /\
  length (texts twin_store) = 2%nat /\
  exists (similar_texts : list string) (scores : list Z),
    search false twin_store [1; 0] 2 = Ok (similar_texts, scores) /\
    (length similar_texts <= Nat.min (Z.to_nat 2) (size twin_store))%nat /\
    length scores = Z.to_nat 2 /\
    descending scores /\
    Forall (fun t => t ∈ texts twin_store) similar_texts /\
    (length (texts twin_store) = 2%nat ->
     length similar_texts = Z.to_nat 2 /\
     exists positions : list nat,
       NoDup positions /\
       Forall2 (fun n t => texts twin_store !! n = Some t)
               positions similar_texts /\
       Forall2 (fun n sc =>
                  exists v, [[1; 0]; [1; 0]] !! n = Some v /\
                            sc = fvec_inner_product
                                   (normalize_query false [1; 0]) v)
               positions scores).
Proof.
  split; [reflexivity|]. split; [vm_compute; split; discriminate|].
  split; [reflexivity|].
  apply (search_returns_top_k false twin_store
           {| d := 2; xb := [[1; 0]; [1; 0]] |} [1; 0] 2);
    [reflexivity | reflexivity | vm_compute; split; discriminate].
Defined.

(** C1 as stated fails where two stored vectors score alike: the twin
    store answers a query for two results with the scores 1 and 1, which
    are not in strictly descending order. *)
Lemma search_ties_not_strictly_descending :
  (1 <= size twin_store)%nat /\
  exists similar_texts scores,
    search false twin_store [1; 0] 2 = Ok (similar_texts, scores) /\
    scores = [1; 1] /\
    ~ strictly_descending scores.
Proof.
  split; [vm_compute; lia|]. eexists _, _. split; [reflexivity|].
  split; [reflexivity|].
  intros Hs. inversion Hs as [|? ? _ Hhd]; subst.
  inversion Hhd as [|? ? Hlt]; subst. discriminate Hlt.
Qed.

(** What [search] returns when [k] exceeds the number of stored vectors:
    after the two stored texts, in one order or the other, the two
    unfilled slots carry the label -1, which passes the test
    [idx < len(self.texts)] and reads the last text. *)
Lemma search_beyond_size_repeats_last :
  exists first second,
    search false twin_store [1; 0] 4
    = Ok ([first; second; "b"; "b"], [1; 1; flowest; flowest]) /\
    [first; second] ≡ₚ ["a"; "b"].
Proof. by eexists _, _. Qed.

Lemma search_empty_index_witness :
  size (new_store example_cfg : @FAISSVectorStore Z) = 0%nat /\
  search false (new_store example_cfg) [1; 0] 3 = Ok ([], []).
Proof.
  split; [reflexivity|].
  apply (search_empty_index false (new_store example_cfg) [1; 0] 3).
  reflexivity.
Defined.

(** ** Claims on [add_embeddings] *)

Section AddClaims.
Context {F : Type} `{Scalar F}.
Variable normalize_L2_raises : bool.

Lemma widths_ok (n : nat) (E : @matrix F) :
  Forall (fun v => length v = n) E ->
  forallb (fun v => Nat.eqb (length v) n) E = true.
Proof.
  induction 1 as [|v E Hv _ IH]; simpl; [done|].
  by rewrite Hv, Nat.eqb_refl, IH.
Qed.

Lemma widths_bad (n : nat) (E : @matrix F) :
  Exists (fun v => length v <> n) E ->
  forallb (fun v => Nat.eqb (length v) n) E = false.
Proof.
  induction 1 as [v E Hv|v E _ IH]; simpl.
  - apply Nat.eqb_neq in Hv. by rewrite Hv.
  - rewrite IH. apply andb_false_r.
Qed.

(** [index.add] refuses a batch with a row of another width; nothing is
    stored and [texts.extend] is not reached. *)
Lemma add_embeddings_rejects (s : @FAISSVectorStore F)
    (embeddings : matrix) (new_texts : list string) :
  Exists (fun v => length v <> index_dimension s) embeddings ->
  exists s',
    add_embeddings normalize_L2_raises s embeddings new_texts
    = (Raise AssertionError, s') /\
    size s' = size s /\
    texts s' = texts s.
Proof.
  unfold add_embeddings, IndexFlatIP_add, index_dimension, size, get_stats.
  intros Hw. rewrite normalize_embeddings_widths.
  destruct (index s) as [ix|] eqn:Hix; simpl;
    rewrite (widths_bad _ _ Hw); eexists; repeat split; simpl;
    by rewrite ?Hix.
Qed.

(** A batch whose rows all have the width of the index is appended, with
    the texts given, however many they are. *)
Lemma add_embeddings_accepts (s : @FAISSVectorStore F)
    (embeddings : matrix) (new_texts : list string) :
  Forall (fun v => length v = index_dimension s) embeddings ->
  exists s',
    add_embeddings normalize_L2_raises s embeddings new_texts
    = (Ok (), s') /\
    size s' = (size s + length embeddings)%nat /\
    texts s' = texts s ++ new_texts.
Proof.
  unfold add_embeddings, IndexFlatIP_add, index_dimension, size, get_stats.
  intros Hw. rewrite normalize_embeddings_widths.
  destruct (index s) as [ix|] eqn:Hix; simpl;
    rewrite (widths_ok _ _ Hw); eexists; repeat split; simpl;
    unfold ntotal; simpl;
    by rewrite ?length_app, ?normalize_embeddings_length.
Qed.

(** C2, as amended: a call of [add_embeddings] in which some vector's
    width differs from the dimension of the index raises (the
    [AssertionError] of [index.add]; the code has no [DimensionMismatch]
    error) and leaves the number of stored vectors and the text list as
    they were; a call in which every vector has that width succeeds
    whatever the number of texts that come with it: the index grows by
    [len(vectors)] and the text list by the texts given. *)
Theorem add_embeddings_checks_width_only (s : @FAISSVectorStore F)
    (embeddings : matrix) (new_texts : list string) :
  (Exists (fun v => length v <> index_dimension s) embeddings ->
   exists s',
     add_embeddings normalize_L2_raises s embeddings new_texts
     = (Raise AssertionError, s') /\
     size s' = size s /\
     texts s' = texts s) /\
  (Forall (fun v => length v = index_dimension s) embeddings ->
   exists s',
     add_embeddings normalize_L2_raises s embeddings new_texts
     = (Ok (), s') /\
     size s' = (size s + length embeddings)%nat /\
     texts s' = texts s ++ new_texts).
Proof.
  split; [apply add_embeddings_rejects | apply add_embeddings_accepts].
Qed.

End AddClaims.

Lemma add_embeddings_checks_width_only_witness :
  Exists (fun v : list Z => length v <> index_dimension twin_store)
         [[1; 0]; [1; 0; 0]] /\
  Forall (fun v : list Z => length v = index_dimension twin_store)
         [[0; 1]] /\
  (exists s',
     add_embeddings false twin_store [[1; 0]; [1; 0; 0]] ["c"; "d"]
     = (Raise AssertionError, s') /\
     size s' = size twin_store /\
     texts s' = texts twin_store) /\
  (exists s',
     add_embeddings false twin_store [[0; 1]] ["c"] = (Ok (), s') /\
     size s' = (size twin_store + 1)%nat /\
     texts s' = texts twin_store ++ ["c"]).
Proof.
  assert (Hbad : Exists (fun v : list Z => length v <> index_dimension twin_store)
                        [[1; 0]; [1; 0; 0]]).
  { apply Exists_cons_tl, Exists_cons_hd. vm_compute. discriminate. }
  assert (Hok : Forall (fun v : list Z => length v = index_dimension twin_store)
                       [[0; 1]]).
  { repeat constructor. }
  split; [exact Hbad|]. split; [exact Hok|]. split.
  - exact (proj1 (add_embeddings_checks_width_only false twin_store
                    [[1; 0]; [1; 0; 0]] ["c"; "d"]) Hbad).
  - exact (proj2 (add_embeddings_checks_width_only false twin_store
                    [[0; 1]] ["c"]) Hok).
Defined.

(** C2 as stated fails on a count mismatch: one vector of the right width
    with no text is accepted, and the index grows from 0 to 1. *)
Lemma add_embeddings_accepts_count_mismatch :
  length [[1; 0]] <> length (@nil string) /\
  size (new_store example_cfg : @FAISSVectorStore Z) = 0%nat /\
  exists s',
    add_embeddings false (new_store example_cfg) [[1; 0]] []
    = (Ok (), s') /\
    size s' = 1%nat /\
    texts s' = [].
Proof.
  split; [discriminate|]. split; [reflexivity|].
  eexists. repeat split.
Qed.

(** ** Claims on [save_index] and [load_index] *)

Lemma artifact_names_differ (filepath : string) :
  index_file filepath <> texts_file filepath.
Proof.
  unfold index_file, texts_file.
  induction filepath as [|c p IH]; simpl; [discriminate|].
  intros Heq. injection Heq as Heq. by apply IH.
Qed.

Section PersistenceClaims.
Context {F : Type} `{Scalar F}.

(** C5, as amended: when both artifacts exist and deserialise,
    [load_index] installs the index and the texts it read and returns
    [True], whatever their sizes: it compares no sizes and raises no
    [CorruptIndex] error.  When an artifact is absent it returns [False]
    and leaves the store as it was. *)
Theorem load_index_installs_unchecked (s : @FAISSVectorStore F)
    (filepath : option string) (fs : gmap string file) :
  let p := default (index_path s) filepath in
  (forall ix ts,
     fs !! index_file p = Some (IndexFile ix) ->
     fs !! texts_file p = Some (PickleFile ts) ->
     load_index s filepath fs = (true, set_texts (set_index s ix) ts)) /\
  (fs !! index_file p = None \/ fs !! texts_file p = None ->
   load_index s filepath fs = (false, s)).
Proof.
  intros p. unfold load_index. fold p. split.
  - intros ix ts -> ->. done.
  - intros [-> | ->]; [done|]. by destruct (fs !! index_file p).
Qed.

(** C6: on a store that has an index, [save_index] under a name succeeds,
    and [load_index] of that name into any other store (a fresh one
    included) then returns [True] and leaves that store with the same
    index (the same vectors in the same order, hence the same size) and
    the same texts in the same order.  Without a name both calls use the
    configured path of their store, which must then be the same. *)
Theorem save_load_roundtrip (s fresh : @FAISSVectorStore F)
    (ix : IndexFlatIP) (filepath : option string) (fs : gmap string file) :
  index s = Some ix ->
  (filepath = None -> index_path fresh = index_path s) ->
  exists fs' s',
    save_index s filepath fs = (Ok (), fs') /\
    load_index fresh filepath fs' = (true, s') /\
    index s' = Some ix /\
    size s' = size s /\
    texts s' = texts s.
Proof.
  intros Hix Hpath. unfold save_index, load_index. rewrite Hix.
  assert (Hp : default (index_path fresh) filepath
               = default (index_path s) filepath).
  { destruct filepath; simpl; [done|]. by apply Hpath. }
  rewrite Hp. set (p := default (index_path s) filepath).
  eexists _, _. split; [done|].
  rewrite lookup_insert_ne by (apply not_eq_sym, artifact_names_differ).
  rewrite !lookup_insert_eq. simpl. split; [done|].
  unfold size, get_stats. simpl. by rewrite Hix.
Qed.

End PersistenceClaims.

Lemma load_index_installs_unchecked_witness :
  mismatched_disk !! index_file "idx"
    = Some (IndexFile {| d := 2; xb := [[1; 0]; [0; 1]] |}) /\
  mismatched_disk !! texts_file "idx" = Some (PickleFile ["only"]) /\
  load_index (new_store example_cfg) (Some "idx") mismatched_disk
  = (true,
     set_texts (set_index (new_store example_cfg)
                          {| d := 2; xb := [[1; 0]; [0; 1]] |})
               ["only"]).
Proof.
  assert (Hi : mismatched_disk !! index_file "idx"
               = Some (IndexFile {| d := 2; xb := [[1; 0]; [0; 1]] |})).
  { reflexivity. }
  assert (Ht : mismatched_disk !! texts_file "idx"
               = Some (PickleFile ["only"])).
  { reflexivity. }
  split; [exact Hi|]. split; [exact Ht|].
  exact (proj1 (load_index_installs_unchecked (new_store example_cfg)
                  (Some "idx") mismatched_disk) _ _ Hi Ht).
Defined.

(** C5 as stated fails: with two vectors and one text on disk,
    [load_index] returns [True] and the store holds both, sizes unequal. *)
Lemma load_index_accepts_size_mismatch :
  exists s' : @FAISSVectorStore Z,
    load_index (new_store example_cfg) (Some "idx") mismatched_disk
    = (true, s') /\
    size s' = 2%nat /\
    length (texts s') = 1%nat.
Proof. eexists. repeat split. Qed.

Lemma save_load_roundtrip_witness :
  index twin_store = Some {| d := 2; xb := [[1; 0]; [1; 0]] |} /\
  exists fs' s',
    save_index twin_store (Some "pdf_faiss_index") ∅ = (Ok (), fs') /\
    load_index (new_store example_cfg) (Some "pdf_faiss_index") fs'
    = (true, s') /\
    index s' = Some {| d := 2; xb := [[1; 0]; [1; 0]] |} /\
    size s' = size twin_store /\
    texts s' = texts twin_store.
Proof.
  split; [reflexivity|].
  apply (save_load_roundtrip twin_store (new_store example_cfg)
           {| d := 2; xb := [[1; 0]; [1; 0]] |} (Some "pdf_faiss_index") ∅);
    [reflexivity | discriminate].
Defined.

(** ** Claims on the pipeline *)

(** Unfold the steps of a pipeline computation. *)
Ltac step_pipeline :=
  unfold mbind, M_bind, invoke, record_call, finish, store_add_embeddings,
    store_save_index, store_search, set_vector_store, set_disk,
    set_is_indexed, get_world, mret, M_ret;
  simpl.

Section PipelineClaims.
Context {F : Type} `{Scalar F}.
Variable normalize_L2_raises : bool.
Variable cfg : Config.
Variable adapters : @Adapters F.

Lemma with_calls_nil (w : @World F) : with_calls w [] = w.
Proof. destruct w. unfold with_calls. simpl. by rewrite app_nil_r. Qed.

Lemma with_calls_app (w : @World F) (a b : list call) :
  with_calls (with_calls w a) b = with_calls w (a ++ b).
Proof. unfold with_calls. simpl. by rewrite app_assoc. Qed.

(** The loop over the documents touches nothing but the record of calls,
    and extends the batch it was given. *)
Lemma process_documents_spec (pdf_contents : list (list Byte.byte))
    (acc : list string) (n : nat) (w w' : World)
    (r : outcome (list string * nat)) :
  process_documents adapters pdf_contents acc n w = (r, w') ->
  vector_store w' = vector_store w /\
  is_indexed w' = is_indexed w /\
  disk w' = disk w /\
  match r with
  | Ok (acc', n') =>
      exists extra, acc' = acc ++ extra /\ n' = (n + length extra)%nat
  | Raise _ => True
  end.
Proof.
  revert acc n w. induction pdf_contents as [|pdf rest IH]; intros acc n w.
  - simpl. intros [= <- <-]. repeat split. exists []. by rewrite app_nil_r.
  - simpl. step_pipeline.
    destruct (process_pdf_content adapters pdf) as [chunks|e].
    + intros Hrest. apply IH in Hrest as (Hs & Hi & Hd & Hr). simpl in *.
      repeat split; try done.
      destruct r as [[acc' n']|]; [|done].
      destruct Hr as (extra & -> & ->).
      exists (chunks ++ extra). rewrite length_app, app_assoc. split; [done|lia].
    + intros [= <- <-]. done.
Qed.

(** Documents that yield no chunk leave the batch empty; each of them
    was processed. *)
Lemma process_documents_no_chunks (pdf_contents : list (list Byte.byte))
    (acc : list string) (n : nat) (w : World) :
  Forall (fun pdf => process_pdf_content adapters pdf = Ok []) pdf_contents ->
  process_documents adapters pdf_contents acc n w
  = (Ok (acc, n), with_calls w (map CallProcessPdf pdf_contents)).
Proof.
  intros Hall. revert acc n w.
  induction Hall as [|pdf rest Hpdf _ IH]; intros acc n w; simpl.
  - by rewrite with_calls_nil.
  - step_pipeline. rewrite Hpdf.
    rewrite app_nil_r, Nat.add_0_r.
    fold (with_calls w [CallProcessPdf pdf]).
    by rewrite IH, with_calls_app.
Qed.

(** What [ingest_pdf_documents] does once the batch and its embeddings are
    there and every embedding has the width of the index: no count is
    compared. *)
Lemma ingest_after_embedding (pdf_contents : list (list Byte.byte))
    (w w1 : World) (chunks : list string) (n : nat) (E : matrix) :
  process_documents adapters pdf_contents [] 0%nat w = (Ok (chunks, n), w1) ->
  generate_embeddings adapters chunks = Ok E ->
  Forall (fun v => length v = index_dimension (vector_store w)) E ->
  exists st w',
    ingest_pdf_documents normalize_L2_raises adapters pdf_contents w = (Ok st, w') /\
    total_documents st = length pdf_contents /\
    total_chunks st = length chunks /\
    stats_total_embeddings st = length E /\
    size (vector_store w') = (size (vector_store w) + length E)%nat /\
    texts (vector_store w') = texts (vector_store w) ++ chunks /\
    is_indexed w' = true.
Proof.
  intros Hdocs Hemb Hw.
  destruct (process_documents_spec _ _ _ _ _ _ Hdocs)
    as (Hs & _ & _ & extra & Hextra & Hn).
  simpl in Hextra, Hn. subst extra n.
  destruct (add_embeddings_accepts normalize_L2_raises
              (vector_store w) E chunks Hw)
    as (s' & Hadd & Hsize & Htexts).
  assert (Hix : exists ix', index s' = Some ix').
  { revert Hadd. unfold add_embeddings.
    destruct (IndexFlatIP_add _ _); intros [= <-]; by eexists. }
  destruct Hix as [ix' Hix].
  unfold ingest_pdf_documents, mbind at 1, M_bind at 1. rewrite Hdocs.
  unfold mbind, M_bind, invoke, record_call, finish, store_add_embeddings,
    store_save_index, set_vector_store, set_disk, set_is_indexed, get_world,
    mret, M_ret, save_index.
  simpl. rewrite Hemb, Hs, Hadd. simpl. rewrite Hix. simpl.
  eexists _, _. split; [done|]. simpl. done.
Qed.

(** [query] writes nothing but the record of calls. *)
Lemma query_keeps_flag (question : string) (top_k : Z) (w w' : World)
    (r : outcome QueryResult) :
  query normalize_L2_raises adapters question top_k w = (r, w') ->
  is_indexed w' = is_indexed w /\ vector_store w' = vector_store w.
Proof.
  unfold query.
  destruct (is_indexed w) eqn:Hi; simpl; [|by intros [= <- <-]].
  step_pipeline.
  destruct (generate_single_embedding adapters question) as [e|?]; simpl;
    [|by intros [= <- <-]].
  destruct (search _ _ _ _) as [[[|t ts] scores]|?]; simpl;
    [by intros [= <- <-] | | by intros [= <- <-]].
  destruct (generate_response _ _ _) as [answer|?]; simpl;
    by intros [= <- <-].
Qed.

(** C3, as amended: the pipeline is [Indexed] after every call of
    [ingest_pdf_documents] that returns, whether or not a chunk was added;
    a call that raises leaves the flag as it was, and so does every call
    of [query].  An ingestion call whose documents yield no chunk is not a
    no-op: when the embedding call returns the empty array of the index's
    width for the empty batch, every document was processed and the
    embedding call, the add and the save were made, in that order; the
    call returns zero chunk and embedding counts and leaves the pipeline
    [Indexed], with an index (created if there was none), the stored
    vectors and the texts as they were before the call, so of size zero
    when the store held nothing, and the two files of [pdf_faiss_index]
    holding that index and those texts. *)
Theorem ingest_sets_indexed_when_it_returns
    (pdf_contents : list (list Byte.byte)) (w : World) :
  (forall r w',
     ingest_pdf_documents normalize_L2_raises adapters pdf_contents w
     = (r, w') ->
     match r with
     | Ok st => is_indexed w' = true /\ total_documents st = length pdf_contents
     | Raise _ => is_indexed w' = is_indexed w
     end) /\
  (forall question top_k r w',
     query normalize_L2_raises adapters question top_k w = (r, w') ->
     is_indexed w' = is_indexed w) /\
  (Forall (fun pdf => process_pdf_content adapters pdf = Ok []) pdf_contents ->
   generate_embeddings adapters [] = Ok [] ->
   exists st w',
     ingest_pdf_documents normalize_L2_raises adapters pdf_contents w
     = (Ok st, w') /\
     total_chunks st = 0%nat /\
     stats_total_embeddings st = 0%nat /\
     calls w' = calls w ++ map CallProcessPdf pdf_contents
                ++ [CallGenerateEmbeddings []; CallAddEmbeddings [];
                    CallSaveIndex "pdf_faiss_index"] /\
     is_indexed w' = true /\
     is_Some (index (vector_store w')) /\
     stored_vectors (vector_store w') = stored_vectors (vector_store w) /\
     texts (vector_store w') = texts (vector_store w) /\
     size (vector_store w') = size (vector_store w) /\
     (size (vector_store w) = 0%nat -> size (vector_store w') = 0%nat) /\
     persisted w').
Proof.
  split; [|split].
  - intros r w'. unfold ingest_pdf_documents, mbind at 1, M_bind at 1.
    destruct (process_documents adapters pdf_contents [] 0%nat w)
      as [[[chunks n]|e] w1] eqn:Hdocs;
      apply process_documents_spec in Hdocs as (_ & Hi & _ & _);
      [|by intros [= <- <-]].
    step_pipeline.
    destruct (generate_embeddings adapters chunks) as [E|e]; simpl;
      [|by intros [= <- <-]].
    destruct (add_embeddings _ _ _ _) as [[[]|e] s']; simpl;
      by intros [= <- <-].
  - intros question top_k r w' Hq.
    by destruct (query_keeps_flag question top_k w w' r Hq).
  - intros Hall Hemb.
    unfold ingest_pdf_documents, mbind at 1, M_bind at 1.
    rewrite (process_documents_no_chunks _ _ _ _ Hall). simpl.
    step_pipeline. rewrite Hemb. simpl.
    assert (Hnorm : normalize_embeddings normalize_L2_raises (@nil (@vector F))
                    = []).
    { unfold normalize_embeddings. by destruct normalize_L2_raises. }
    unfold add_embeddings, IndexFlatIP_add. rewrite Hnorm. simpl.
    eexists _, _. split; [reflexivity|]. simpl.
    split; [done|]. split; [done|].
    split; [by rewrite <- !app_assoc|].
    split; [done|].
    unfold stored_vectors, size, get_stats, persisted, save_index.
    destruct (index (vector_store w)) as [ix|] eqn:Hix; simpl;
      rewrite ?Hix; simpl; rewrite ?app_nil_r;
      (split; [by eexists|]); (split; [done|]); (split; [done|]);
      (split; [unfold ntotal; simpl; by rewrite ?app_nil_r|]);
      (split; [unfold ntotal; simpl; by rewrite ?app_nil_r|]);
      eexists; (split; [reflexivity|]);
      rewrite lookup_insert_ne by (apply not_eq_sym, artifact_names_differ);
      by rewrite !lookup_insert_eq.
Qed.

(** C4, as amended: [ingest_pdf_documents] compares no counts.  When the
    embedding call returns vectors of the index's width, whatever their
    number, the call returns: all returned vectors and all chunks of the
    batch are inserted, the pipeline is [Indexed], and the two counts are
    reported as they are, equal or not.  No [AdapterContractViolation] is
    raised. *)
Theorem ingest_compares_no_counts (pdf_contents : list (list Byte.byte))
    (w w1 : World) (chunks : list string) (n : nat) (E : matrix) :
  process_documents adapters pdf_contents [] 0%nat w = (Ok (chunks, n), w1) ->
  generate_embeddings adapters chunks = Ok E ->
  Forall (fun v => length v = index_dimension (vector_store w)) E ->
  exists st w',
    ingest_pdf_documents normalize_L2_raises adapters pdf_contents w = (Ok st, w') /\
    total_chunks st = length chunks /\
    stats_total_embeddings st = length E /\
    size (vector_store w') = (size (vector_store w) + length E)%nat /\
    texts (vector_store w') = texts (vector_store w) ++ chunks /\
    is_indexed w' = true.
Proof.
  intros Hdocs Hemb Hw.
  destruct (ingest_after_embedding pdf_contents w w1 chunks n E Hdocs Hemb Hw)
    as (st & w' & Hrun & _ & Hrest).
  by exists st, w'.
Qed.

(** C8: on a pipeline that is not indexed, [query] returns the "no index
    available" dictionary and leaves the world as it was: the record of
    calls is unchanged, so no embedding call and no search was made, and
    nothing is raised.  A pipeline that was just reset, and a new one, are
    in that state. *)
Theorem query_not_indexed (question : string) (top_k : Z) (w : World) :
  (is_indexed w = false ->
   query normalize_L2_raises adapters question top_k w = (Ok not_indexed_result, w)) /\
  (let w' := snd (reset_pipeline cfg w) in
   fst (reset_pipeline cfg w) = Ok () /\
   calls w' = calls w /\
   query normalize_L2_raises adapters question top_k w' = (Ok not_indexed_result, w')) /\
  (forall fs,
     query normalize_L2_raises adapters question top_k (new_pipeline cfg fs)
     = (Ok not_indexed_result, new_pipeline cfg fs)).
Proof.
  unfold query. repeat split.
  intros ->. done.
Qed.

(** C10: whenever [query] returns a dictionary without the key [error],
    the pipeline was indexed, the key [num_context_chunks] holds the length
    of the list under [context], and the lists under [context] and
    [similarity_scores] are the two lists that [search] returned for the
    embedding of the question and [top_k]; the context is not empty and
    the response is what the answer call returned for it. *)
Theorem query_success_fields (question : string) (top_k : Z)
    (w w' : World) (res : QueryResult) :
  query normalize_L2_raises adapters question top_k w = (Ok res, w') ->
  error res = None ->
  is_indexed w = true /\
  num_context_chunks res = Some (length (context res)) /\
  context res <> [] /\
  exists query_embedding,
    generate_single_embedding adapters question = Ok query_embedding /\
    search normalize_L2_raises (vector_store w) query_embedding top_k
    = Ok (context res, similarity_scores res) /\
    generate_response adapters question (context res) = Ok (response res).
Proof.
  unfold query.
  destruct (is_indexed w); simpl; [|by intros [= <- <-]].
  step_pipeline.
  destruct (generate_single_embedding adapters question) as [e|?]; simpl;
    [|done].
  destruct (search _ _ _ _) as [[[|t ts] scores]|?] eqn:Hsearch; simpl;
    [by intros [= <- <-] | | done].
  destruct (generate_response _ _ _) as [answer|?] eqn:Hans; simpl; [|done].
  intros [= <- <-] _. simpl. repeat split; [done|].
  by exists e.
Qed.

End PipelineClaims.

(** ** Claims on normalisation, in exact real arithmetic and in float32 *)

Section AddStores.
Context {F : Type} `{Scalar F}.
Variable normalize_L2_raises : bool.



End AddStores.

Section RealNormalization.
Local Open Scope R_scope.














End RealNormalization.

Lemma norm_three_four : linalg_norm three_four = 5%R.
Proof.
  unfold linalg_norm, three_four. cbn.
  replace (3 * 3 + (4 * 4 + 0))%R with (5 * 5)%R by ring.
  apply sqrt_square. lra.
Qed.

Lemma norm_zero_row : linalg_norm zero_row = 0%R.
Proof.
  unfold linalg_norm, zero_row. cbn.
  replace (0 * 0 + (0 * 0 + 0))%R with 0%R by ring.
  apply sqrt_0.
Qed.

Lemma norm_three_four_nonzero : linalg_norm three_four <> 0%R.
Proof. rewrite norm_three_four. lra. Qed.



(** ** The pipeline claims on the example data *)

Lemma ingest_sets_indexed_when_it_returns_witness :
  Forall (fun pdf => process_pdf_content example_adapters pdf = Ok []) [] /\
  generate_embeddings example_adapters [] = Ok [] /\
  exists st w',
    ingest_pdf_documents false example_adapters [] fresh_world
    = (Ok st, w') /\
    total_chunks st = 0%nat /\
    stats_total_embeddings st = 0%nat /\
    calls w' = calls fresh_world ++ map CallProcessPdf []
               ++ [CallGenerateEmbeddings []; CallAddEmbeddings [];
                   CallSaveIndex "pdf_faiss_index"] /\
    is_indexed w' = true /\
    is_Some (index (vector_store w')) /\
    stored_vectors (vector_store w')
    = stored_vectors (vector_store fresh_world) /\
    texts (vector_store w') = texts (vector_store fresh_world) /\
    size (vector_store w') = size (vector_store fresh_world) /\
    (size (vector_store fresh_world) = 0%nat ->
     size (vector_store w') = 0%nat) /\
    persisted w'.
Proof.
  split; [constructor|]. split; [reflexivity|].
  apply (proj2 (proj2 (ingest_sets_indexed_when_it_returns false
                         example_adapters [] fresh_world)));
    [constructor | reflexivity].
Defined.

(** C3 as stated fails: an ingestion call without documents, so with an
    empty batch, on a new pipeline returns zero counts and leaves the
    pipeline [Indexed], after three calls to its components. *)
Lemma ingest_empty_batch_becomes_indexed :
  is_indexed fresh_world = false /\
  exists st w',
    ingest_pdf_documents false example_adapters [] fresh_world
    = (Ok st, w') /\
    total_chunks st = 0%nat /\
    stats_total_embeddings st = 0%nat /\
    size (vector_store w') = 0%nat /\
    calls w' = [CallGenerateEmbeddings []; CallAddEmbeddings [];
                CallSaveIndex "pdf_faiss_index"] /\
    is_indexed w' = true.
Proof.
  split; [reflexivity|]. eexists _, _. split; [reflexivity|].
  repeat split.
Qed.

Lemma ingest_compares_no_counts_witness :
  generate_embeddings short_adapters ["chunk one"; "chunk two"]
  = Ok [[1; 0]] /\
  exists st w',
    ingest_pdf_documents false short_adapters [example_pdf] fresh_world
    = (Ok st, w') /\
    total_chunks st = length ["chunk one"; "chunk two"] /\
    stats_total_embeddings st = length [[1; 0]] /\
    size (vector_store w')
    = (size (vector_store fresh_world) + length [[1; 0]])%nat /\
    texts (vector_store w')
    = texts (vector_store fresh_world) ++ ["chunk one"; "chunk two"] /\
    is_indexed w' = true.
Proof.
  split; [reflexivity|].
  apply (ingest_compares_no_counts false short_adapters [example_pdf]
           fresh_world
           (snd (process_documents short_adapters [example_pdf] [] 0%nat
                                   fresh_world))
           ["chunk one"; "chunk two"] 2%nat [[1; 0]]);
    [reflexivity | reflexivity | repeat constructor].
Defined.

(** C4 as stated fails: the embedding call returns one vector for a batch
    of two chunks, and the ingestion call returns; the index holds one
    vector beside two texts and the pipeline is [Indexed]. *)
Lemma ingest_inserts_mismatched_batch :
  exists st w',
    ingest_pdf_documents false short_adapters [example_pdf] fresh_world
    = (Ok st, w') /\
    total_chunks st = 2%nat /\
    stats_total_embeddings st = 1%nat /\
    size (vector_store w') = 1%nat /\
    texts (vector_store w') = ["chunk one"; "chunk two"] /\
    is_indexed w' = true.
Proof. eexists _, _. split; [reflexivity|]. repeat split. Qed.

Lemma query_not_indexed_witness :
  is_indexed fresh_world = false /\
  query false example_adapters "What is X?" 5 fresh_world
  = (Ok not_indexed_result, fresh_world).
Proof.
  split; [reflexivity|].
  apply (proj1 (query_not_indexed false example_cfg example_adapters
                  "What is X?" 5 fresh_world)).
  reflexivity.
Defined.

Lemma query_success_fields_witness :
  exists res w',
    query false example_adapters "What is X?" 2 indexed_world = (Ok res, w') /\
    error res = None /\
    is_indexed indexed_world = true /\
    num_context_chunks res = Some (length (context res)) /\
    context res <> [] /\
    exists query_embedding,
      generate_single_embedding example_adapters "What is X?"
      = Ok query_embedding /\
      search false (vector_store indexed_world) query_embedding 2
      = Ok (context res, similarity_scores res) /\
      generate_response example_adapters "What is X?" (context res)
      = Ok (response res).
Proof.
  eexists _, _. split; [reflexivity|]. split; [reflexivity|].
  eapply (query_success_fields false example_adapters "What is X?" 2
            indexed_world); reflexivity.
Defined.

(** * Further properties of the code *)

(** ** [add_embeddings], [save_index] and [load_index] *)

Section StoreProperties.
Context {F : Type} `{Scalar F}.
Variable normalize_L2_raises : bool.

Lemma size_stored_vectors (s : @FAISSVectorStore F) :
  size s = length (stored_vectors s).
Proof. unfold size, get_stats, stored_vectors. by destruct (index s). Qed.

Lemma widths_cases (n : nat) (E : @matrix F) :
  (forallb (fun v => Nat.eqb (length v) n) E = true /\
   Forall (fun v => length v = n) E) \/
  (forallb (fun v => Nat.eqb (length v) n) E = false /\
   Exists (fun v => length v <> n) E).
Proof.
  induction E as [|v E [[Hb HF]|[Hb HE]]]; simpl.
  - left. by split.
  - destruct (Nat.eqb_spec (length v) n) as [Hv|Hv]; simpl.
    + left. split; [done|]. by constructor.
    + right. split; [done|]. by apply Exists_cons_hd.
  - right. rewrite Hb, andb_false_r. split; [done|]. by apply Exists_cons_tl.
Qed.

Lemma normalize_embeddings_widths_Forall (n : nat) (E : @matrix F) :
  Forall (fun v => length v = n) E ->
  Forall (fun v => length v = n) (normalize_embeddings normalize_L2_raises E).
Proof.
  unfold normalize_embeddings, normalize_L2.
  destruct normalize_L2_raises; induction 1; simpl; constructor; try done.
  - by rewrite fallback_normalize_row_length.
  - by rewrite fvec_renorm_L2_length.
Qed.

(** The two ways a call of [add_embeddings] can end. *)
Lemma add_embeddings_inversion (s s' : @FAISSVectorStore F)
    (E : matrix) (T : list string) (o : outcome ()) :
  add_embeddings normalize_L2_raises s E T = (o, s') ->
  dimension s' = dimension s /\
  index_path s' = index_path s /\
  index_dimension s' = index_dimension s /\
  is_Some (index s') /\
  ((o = Ok () /\
    Forall (fun v => length v = index_dimension s) E /\
    stored_vectors s'
    = stored_vectors s ++ normalize_embeddings normalize_L2_raises E /\
    texts s' = texts s ++ T) \/
   (o = Raise AssertionError /\
    Exists (fun v => length v <> index_dimension s) E /\
    stored_vectors s' = stored_vectors s /\
    texts s' = texts s)).
Proof.
  unfold add_embeddings, IndexFlatIP_add, index_dimension, stored_vectors.
  rewrite normalize_embeddings_widths.
  destruct (index s) as [ix|] eqn:Hix; simpl.
  - destruct (widths_cases (d ix) E) as [[-> HF]|[-> HE]]; intros [= <- <-];
      simpl; rewrite ?Hix; (split; [done|]); (split; [done|]);
      (split; [done|]); (split; [by eexists|]).
    + left. by repeat split.
    + right. by repeat split.
  - destruct (widths_cases (dimension s) E) as [[-> HF]|[-> HE]];
      intros [= <- <-]; simpl; (split; [done|]); (split; [done|]);
      (split; [done|]); (split; [by eexists|]).
    + left. by repeat split.
    + right. by repeat split.
Qed.

(** X1: [add_embeddings] keeps the invariant of the data model, as many
    texts as vectors, whenever it is given as many texts as vectors, and
    it does so whether it returns or raises. *)
Theorem add_embeddings_keeps_consistent (s : @FAISSVectorStore F)
    (embeddings : matrix) (new_texts : list string) :
  consistent s ->
  length embeddings = length new_texts ->
  consistent (snd (add_embeddings normalize_L2_raises s embeddings new_texts)).
Proof.
  unfold consistent. rewrite !size_stored_vectors. intros Hs Hlen.
  destruct (add_embeddings normalize_L2_raises s embeddings new_texts)
    as [o s'] eqn:Hadd.
  simpl.
  apply add_embeddings_inversion in Hadd
    as (_ & _ & _ & _ & [(_ & _ & -> & ->)|(_ & _ & -> & ->)]).
  - rewrite !length_app, normalize_embeddings_length. lia.
  - done.
Qed.

(** X2: [add_embeddings] only appends.  Whether it returns or raises, every
    vector and every text that was stored before the call is stored at the
    same position after it. *)
Theorem add_embeddings_appends_only (s : @FAISSVectorStore F)
    (embeddings : matrix) (new_texts : list string) :
  let s' := snd (add_embeddings normalize_L2_raises s embeddings new_texts) in
  (forall n v, stored_vectors s !! n = Some v ->
               stored_vectors s' !! n = Some v) /\
  (forall n t, texts s !! n = Some t -> texts s' !! n = Some t) /\
  (size s <= size s')%nat.
Proof.
  simpl. rewrite !size_stored_vectors.
  destruct (add_embeddings normalize_L2_raises s embeddings new_texts)
    as [o s'] eqn:Hadd.
  simpl.
  apply add_embeddings_inversion in Hadd
    as (_ & _ & _ & _ & [(_ & _ & -> & ->)|(_ & _ & -> & ->)]).
  - repeat split.
    + intros n v Hv. by apply lookup_app_l_Some.
    + intros n t Ht. by apply lookup_app_l_Some.
    + rewrite length_app. lia.
  - repeat split; done.
Qed.

(** X5: [save_index] writes its two files and returns, whatever the
    store holds, and leaves every other file as it was.  The texts file
    holds the texts of the store.  The index file holds the index of the
    store when it has one; [self.index] is not tested, so for a store
    without an index the index file is the one faiss writes for no
    index. *)
Theorem save_index_writes_two_files (s : @FAISSVectorStore F)
    (filepath : option string) (fs : gmap string file) :
  let p := default (index_path s) filepath in
  exists fs',
    save_index s filepath fs = (Ok (), fs') /\
    (forall ix, index s = Some ix ->
                fs' !! index_file p = Some (IndexFile ix)) /\
    (index s = None -> fs' !! index_file p = Some NullIndexFile) /\
    fs' !! texts_file p = Some (PickleFile (texts s)) /\
    forall name,
      name <> index_file p -> name <> texts_file p ->
      fs' !! name = fs !! name.
Proof.
  intros p. unfold save_index. fold p. eexists. split; [done|].
  rewrite lookup_insert_ne by (apply not_eq_sym, artifact_names_differ).
  rewrite !lookup_insert_eq. repeat split.
  - by intros ix ->.
  - by intros ->.
  - intros name Hi Ht. by rewrite !lookup_insert_ne.
Qed.

(** X6: what a failed [load_index] leaves behind, when both files exist.
    If the index file cannot be read the store is as it was.  If the index
    file can be read and the texts file cannot, the store keeps the index
    just read beside the texts it had before: [load_index] returns [False]
    on a store it has changed.  If the index file is the one written for no
    index, the store loses its index and, when the texts file can be read,
    takes its texts, and [load_index] still returns [False]: the closing
    [print] reads [self.index.ntotal]. *)
Theorem load_index_failure_states (s : @FAISSVectorStore F)
    (filepath : option string) (fs : gmap string file)
    (fi ft : file) :
  let p := default (index_path s) filepath in
  fs !! index_file p = Some fi ->
  fs !! texts_file p = Some ft ->
  (forall e, read_index fi = Raise e ->
             load_index s filepath fs = (false, s)) /\
  (forall ix e,
     read_index fi = Ok (Some ix) ->
     pickle_load ft = Raise e ->
     load_index s filepath fs = (false, set_index s ix)) /\
  (read_index fi = Ok None ->
   (forall e, pickle_load ft = Raise e ->
              load_index s filepath fs = (false, clear_index s)) /\
   (forall ts, pickle_load ft = Ok ts ->
               load_index s filepath fs
               = (false, set_texts (clear_index s) ts))).
Proof.
  intros p Hi Ht. unfold load_index. fold p. rewrite Hi, Ht.
  split; [|split].
  - by intros e ->.
  - by intros ix e -> ->.
  - intros ->. split; [by intros e -> | by intros ts ->].
Qed.

(** X22: after every call of [add_embeddings], returned or raised,
    [get_stats] has the key [total_texts], with the number of texts, and
    reports the number of stored vectors under [total_embeddings] and the
    dimension the store was created with: the index is created before the
    batch is checked, so even a rejected first batch changes the
    statistics of a new store, which has no [total_texts]. *)
Theorem get_stats_after_add (s : @FAISSVectorStore F)
    (embeddings : matrix) (new_texts : list string) :
  let s' := snd (add_embeddings normalize_L2_raises s embeddings new_texts) in
  total_texts (get_stats s') = Some (length (texts s')) /\
  total_embeddings (get_stats s') = length (stored_vectors s') /\
  stats_dimension (get_stats s') = dimension s /\
  (index s = None -> total_texts (get_stats s) = None).
Proof.
  simpl.
  destruct (add_embeddings normalize_L2_raises s embeddings new_texts)
    as [o s'] eqn:Hadd.
  simpl.
  apply add_embeddings_inversion in Hadd as (Hd & _ & _ & [ix' Hix'] & _).
  unfold get_stats, stored_vectors. rewrite Hix'. simpl.
  repeat split; [done|]. by intros ->.
Qed.

End StoreProperties.

(** ** [search] at its bounds *)

Lemma omap_app {A B} (f : A -> outcome B) (l1 l2 : list A)
    (r1 r2 : list B) :
  omap f l1 = Ok r1 -> omap f l2 = Ok r2 -> omap f (l1 ++ l2) = Ok (r1 ++ r2).
Proof.
  revert r1. induction l1 as [|x l1 IH]; simpl; intros r1.
  - by intros [= <-].
  - destruct (f x) as [y|]; simpl; [|done].
    destruct (omap f l1) as [ys|]; simpl; [|done].
    intros [= <-] H2. by rewrite (IH ys eq_refl H2).
Qed.

Lemma omap_replicate {A B} (f : A -> outcome B) (n : nat) (a : A) (b : B) :
  f a = Ok b -> omap f (replicate n a) = Ok (replicate n b).
Proof.
  intros Hf. induction n as [|n IH]; simpl; [done|].
  by rewrite Hf, IH.
Qed.

Lemma filter_replicate_all {A} (P : A -> Prop) `{forall x, Decision (P x)}
    (n : nat) (a : A) :
  P a -> filter P (replicate n a) = replicate n a.
Proof.
  intros Ha. induction n as [|n IH]; simpl; [done|].
  by rewrite filter_cons_True, IH.
Qed.

(** [l[-1]] is the last element. *)
Lemma py_getitem_last {A} (l : list A) (x : A) :
  last l = Some x -> py_getitem l (-1) = Ok x.
Proof.
  intros Hl. rewrite last_lookup in Hl.
  pose proof (lookup_lt_Some _ _ _ Hl) as Hlt.
  unfold py_getitem. simpl.
  replace (0 <=? -1 + Z.of_nat (length l)) with true by lia.
  replace (-1 + Z.of_nat (length l) <? Z.of_nat (length l)) with true by lia.
  simpl.
  replace (Z.to_nat (-1 + Z.of_nat (length l))) with (pred (length l)) by lia.
  by rewrite Hl.
Qed.

Lemma map_injective {A B} (f : A -> B) (l1 l2 : list A) :
  (forall x y, f x = f y -> x = y) -> map f l1 = map f l2 -> l1 = l2.
Proof.
  intros Hf. revert l2. induction l1 as [|x l1 IH]; intros [|y l2]; simpl;
    try done.
  intros [= Hxy Hl]. f_equal; [by apply Hf | by apply IH].
Qed.

Lemma Permutation_map_injective {A B} (f : A -> B) (l1 l2 : list A) :
  (forall x y, f x = f y -> x = y) ->
  map f l1 ≡ₚ map f l2 -> l1 ≡ₚ l2.
Proof.
  intros Hf Hp. apply Permutation_map_inv in Hp as (l3 & Heq & Hp).
  apply (map_injective f _ _ Hf) in Heq as ->. by symmetry.
Qed.

(** Reading a list at every position once, in any order, permutes it. *)
Lemma lookups_permutation {A} (l found : list A) (positions : list nat) :
  Forall2 (fun n x => l !! n = Some x) positions found ->
  positions ≡ₚ seq 0 (length l) ->
  found ≡ₚ l.
Proof.
  intros Hf.
  assert (Hfound : Some <$> found = (fun n => l !! n) <$> positions).
  { induction Hf as [|n x ps xs Hx _ IH]; [done|].
    rewrite !fmap_cons, Hx. by f_equal. }
  intros Hp.
  assert (Hl : Some <$> l = (fun n => l !! n) <$> seq 0 (length l)).
  { apply list_eq. intros i. rewrite !list_lookup_fmap.
    destruct (decide (i < length l)%nat) as [Hlt|Hge].
    - rewrite lookup_seq_lt by done. simpl.
      by destruct (lookup_lt_is_Some_2 l i Hlt) as [x ->].
    - rewrite lookup_seq_ge, lookup_ge_None_2 by lia. done. }
  apply (Permutation_map_injective (@Some A)).
  { by intros ? ? [= ->]. }
  change (Some <$> found ≡ₚ Some <$> l).
  by rewrite Hfound, Hl, Hp.
Qed.

Section SearchBounds.
Context {F : Type} `{ScalarOrder F}.
Variable normalize_L2_raises : bool.

(** X3: on a store that holds a vector, [search] raises the
    [AssertionError] of [index.search] when [k] is not positive or the
    query has another length than the dimension of the index; it returns
    no partial result. *)
Theorem search_rejects_bad_arguments (s : @FAISSVectorStore F)
    (ix : IndexFlatIP) (q : vector) (k : Z) :
  index s = Some ix ->
  ntotal ix <> 0%nat ->
  k <= 0 \/ length q <> d ix ->
  search normalize_L2_raises s q k = Raise AssertionError.
Proof.
  intros Hix Hn Hbad. unfold search. rewrite Hix.
  destruct (Nat.eqb_spec (ntotal ix) 0) as [Hz|_]; [done|].
  unfold IndexFlatIP_search. rewrite normalize_query_length.
  destruct (Nat.eqb_spec (length q) (d ix)) as [Hq|Hq]; simpl; [|done].
  destruct Hbad as [Hk|Hd]; [|done].
  replace (0 <? k) with false by lia. done.
Qed.

(** The labels of a full ranking are the positions of the store, in some
    order. *)
Lemma full_ranking_positions (xs : @matrix F) (q : vector)
    (positions : list nat) :
  map snd (sort_desc (scan xs q)) = map Z.of_nat positions ->
  positions ≡ₚ seq 0 (length xs).
Proof.
  intros Hlab. apply (Permutation_map_injective Z.of_nat).
  { intros ? ?. apply Nat2Z.inj. }
  rewrite <- Hlab, (sort_desc_perm (scan xs q)), scan_labels. done.
Qed.

(** X4: on a store with as many texts as vectors, at least one, [search]
    for [k] results, where [k] is at least the number of stored vectors
    and below 100, returns every stored position once, ranked by
    descending score: each text is the text stored at its position and
    each score the inner product of the normalised query with the vector
    stored there.  They are followed by [k - size] copies of the last
    stored text, each with the score [flowest] that faiss leaves in the
    result slots it could not fill: the label -1 of such a slot passes
    [idx < len(self.texts)] and [self.texts[-1]] is the last text.  With
    [k = size] nothing is appended. *)
Theorem search_pads_with_last_text (s : @FAISSVectorStore F)
    (ix : IndexFlatIP) (q : vector) (k : Z) (last_text : string) :
  index s = Some ix ->
  length (texts s) = ntotal ix ->
  length q = d ix ->
  last (texts s) = Some last_text ->
  Z.of_nat (ntotal ix) <= k < 100 ->
  exists (positions : list nat) (ranked_texts : list string)
         (ranked_scores : list F),
    search normalize_L2_raises s q k
    = Ok (ranked_texts
            ++ replicate (Z.to_nat k - ntotal ix)%nat last_text,
          ranked_scores
            ++ replicate (Z.to_nat k - ntotal ix)%nat flowest) /\
    positions ≡ₚ seq 0 (ntotal ix) /\
    Forall2 (fun n t => texts s !! n = Some t) positions ranked_texts /\
    Forall2 (fun n sc =>
               exists v, xb ix !! n = Some v /\
                         sc = fvec_inner_product
                                (normalize_query normalize_L2_raises q) v)
            positions ranked_scores /\
    ranked_texts ≡ₚ texts s /\
    descending ranked_scores.
Proof.
  intros Hix Hinv Hq Hlast Hk. unfold ntotal in *.
  assert (Hpos : (1 <= length (xb ix))%nat).
  { rewrite <- Hinv. destruct (texts s); [done | simpl; lia]. }
  set (q' := normalize_query normalize_L2_raises q).
  set (r := sort_desc (scan (xb ix) q')).
  assert (Hr : length r = length (xb ix)).
  { unfold r. by rewrite sort_desc_length, scan_length. }
  pose proof (top_from_scan (xb ix) q' (length (xb ix))) as Htop.
  fold r in Htop. rewrite take_ge in Htop by lia.
  destruct (resolve_labels (texts s) (xb ix) q' r Hinv Htop)
    as (positions & found & Hlab & Hfil & Hmap & Hts & Hsc).
  assert (Hperm : positions ≡ₚ seq 0 (length (xb ix))).
  { by apply (full_ranking_positions _ q'). }
  exists positions, found, (map fst r).
  split; [|split; [done|split; [done|split; [done|split]]]].
  - unfold search. rewrite Hix. unfold ntotal.
    destruct (Nat.eqb_spec (length (xb ix)) 0) as [Hz|_]; [lia|].
    unfold IndexFlatIP_search. fold q'.
    unfold q' at 1. rewrite normalize_query_length, Hq, Nat.eqb_refl.
    replace (0 <? k) with true by lia. simpl.
    unfold knn_inner_product. fold r.
    rewrite take_ge by lia. rewrite Hr.
    rewrite !map_app.
    change (map snd (replicate ?n ?p)) with (snd <$> replicate n p).
    change (map fst (replicate ?n ?p)) with (fst <$> replicate n p).
    rewrite !fmap_replicate. simpl.
    rewrite filter_app, Hfil.
    rewrite filter_replicate_all by lia.
    rewrite (omap_app _ _ _ _ _ Hmap
               (omap_replicate _ _ _ _ (py_getitem_last _ _ Hlast))).
    done.
  - apply (lookups_permutation _ _ positions Hts). by rewrite Hinv.
  - apply desc_pairs_scores, sort_desc_sorted.
Qed.

End SearchBounds.

(** ** How an ingestion call can end *)

Section IngestProperties.
Context {F : Type} `{Scalar F}.
Variable normalize_L2_raises : bool.
Variable cfg : Config.
Variable adapters : @Adapters F.

(** The loop over the documents when every document is processed. *)
Lemma process_documents_ok (pdf_contents : list (list Byte.byte))
    (per_doc : list (list string)) (acc : list string) (n : nat)
    (w : World) :
  Forall2 (fun pdf chunks => process_pdf_content adapters pdf = Ok chunks)
          pdf_contents per_doc ->
  process_documents adapters pdf_contents acc n w
  = (Ok (acc ++ concat per_doc, (n + length (concat per_doc))%nat),
     with_calls w (map CallProcessPdf pdf_contents)).
Proof.
  intros Hall. revert acc n w.
  induction Hall as [|pdf chunks rest per_doc Hpdf _ IH]; intros acc n w;
    simpl.
  - by rewrite app_nil_r, Nat.add_0_r, with_calls_nil.
  - step_pipeline. rewrite Hpdf.
    fold (with_calls w [CallProcessPdf pdf]).
    rewrite IH, with_calls_app, length_app, app_assoc. simpl.
    do 2 f_equal. f_equal. lia.
Qed.

(** The loop over the documents when one of them cannot be processed: it
    stops there. *)
Lemma process_documents_fails (before after : list (list Byte.byte))
    (bad : list Byte.byte) (per_doc : list (list string)) (e : exn)
    (acc : list string) (n : nat) (w : World) :
  Forall2 (fun pdf chunks => process_pdf_content adapters pdf = Ok chunks)
          before per_doc ->
  process_pdf_content adapters bad = Raise e ->
  process_documents adapters (before ++ bad :: after) acc n w
  = (Raise e, with_calls w (map CallProcessPdf (before ++ [bad]))).
Proof.
  intros Hall Hbad. revert acc n w.
  induction Hall as [|pdf chunks rest per_doc Hpdf _ IH]; intros acc n w;
    simpl.
  - step_pipeline. by rewrite Hbad.
  - step_pipeline. rewrite Hpdf.
    fold (with_calls w [CallProcessPdf pdf]).
    by rewrite IH, with_calls_app.
Qed.

(** Every run of the loop is one of the two above. *)
Lemma process_documents_inversion (pdf_contents : list (list Byte.byte))
    (acc : list string) (n : nat) (w w' : World)
    (r : outcome (list string * nat)) :
  process_documents adapters pdf_contents acc n w = (r, w') ->
  (exists per_doc,
     Forall2 (fun pdf chunks => process_pdf_content adapters pdf = Ok chunks)
             pdf_contents per_doc) \/
  (exists before bad after per_doc e,
     pdf_contents = before ++ bad :: after /\
     Forall2 (fun pdf chunks => process_pdf_content adapters pdf = Ok chunks)
             before per_doc /\
     process_pdf_content adapters bad = Raise e).
Proof.
  intros _. induction pdf_contents as [|pdf rest IH].
  - left. exists []. constructor.
  - destruct (process_pdf_content adapters pdf) as [chunks|e] eqn:Hpdf.
    + destruct IH as [[per_doc Hall]|(before & bad & after & per_doc & e
                                      & -> & Hall & Hbad)].
      * left. exists (chunks :: per_doc). by constructor.
      * right. exists (pdf :: before), bad, after, (chunks :: per_doc), e.
        repeat split; [by constructor | done].
    + right. exists [], pdf, rest, [], e. repeat split; [constructor | done].
Qed.

(** Every ingestion call ends in one of four ways: a document could not
    be processed, the embedding call raised, [index.add] raised, or the
    call went through. *)
Lemma ingest_inversion (pdf_contents : list (list Byte.byte))
    (w w' : World) (r : outcome IngestStats) :
  ingest_pdf_documents normalize_L2_raises adapters pdf_contents w = (r, w') ->
  (exists before bad after per_doc e,
     pdf_contents = before ++ bad :: after /\
     Forall2 (fun pdf chunks => process_pdf_content adapters pdf = Ok chunks)
             before per_doc /\
     process_pdf_content adapters bad = Raise e /\
     r = Raise e /\
     w' = with_calls w (map CallProcessPdf (before ++ [bad]))) \/
  (exists per_doc,
     Forall2 (fun pdf chunks => process_pdf_content adapters pdf = Ok chunks)
             pdf_contents per_doc /\
     ((exists e,
         generate_embeddings adapters (concat per_doc) = Raise e /\
         r = Raise e /\
         w' = with_calls w (map CallProcessPdf pdf_contents
                            ++ [CallGenerateEmbeddings (concat per_doc)])) \/
      (exists E o s',
         generate_embeddings adapters (concat per_doc) = Ok E /\
         add_embeddings normalize_L2_raises (vector_store w) E
                        (concat per_doc) = (o, s') /\
         match o with
         | Raise e =>
             r = Raise e /\
             w' = add_failed w s'
                    (map CallProcessPdf pdf_contents
                     ++ [CallGenerateEmbeddings (concat per_doc);
                         CallAddEmbeddings (concat per_doc)])
         | Ok _ =>
             r = Ok {| total_documents := length pdf_contents;
                       total_chunks := length (concat per_doc);
                       stats_total_embeddings := length E;
                       vector_store_stats := get_stats s' |} /\
             w' = ingested w s'
                    (map CallProcessPdf pdf_contents
                     ++ [CallGenerateEmbeddings (concat per_doc);
                         CallAddEmbeddings (concat per_doc);
                         CallSaveIndex "pdf_faiss_index"])
         end))).
Proof.
  intros Hrun.
  destruct (process_documents adapters pdf_contents [] 0%nat w)
    as [r0 w0] eqn:Hdocs.
  destruct (process_documents_inversion _ _ _ _ _ _ Hdocs)
    as [[per_doc Hall]|(before & bad & after & per_doc & e & -> & Hall & Hbad)].
  - right. exists per_doc. split; [done|].
    revert Hrun. unfold ingest_pdf_documents, mbind at 1, M_bind at 1.
    rewrite (process_documents_ok _ _ _ _ _ Hall). simpl.
    step_pipeline.
    destruct (generate_embeddings adapters (concat per_doc)) as [E|e] eqn:Hemb;
      simpl.
    + destruct (add_embeddings normalize_L2_raises (vector_store w) E
                               (concat per_doc)) as [o s'] eqn:Hadd.
      pose proof (add_embeddings_inversion _ _ _ _ _ _ Hadd)
        as (_ & _ & _ & [ix' Hix'] & _).
      intros Hrun. right. exists E, o, s'. split; [done|]. split; [done|].
      revert Hrun. destruct o as [[]|e]; simpl.
      * unfold save_index. rewrite Hix'. simpl. intros [= <- <-].
        split; [done|]. unfold ingested, save_index. rewrite Hix'. simpl.
        f_equal. by rewrite <- !app_assoc.
      * intros [= <- <-]. split; [done|]. unfold add_failed.
        f_equal. by rewrite <- !app_assoc.
    + intros [= <- <-]. left. exists e. repeat split.
      unfold with_calls. simpl. f_equal. by rewrite <- !app_assoc.
  - left. exists before, bad, after, per_doc, e.
    revert Hrun. unfold ingest_pdf_documents, mbind at 1, M_bind at 1.
    rewrite (process_documents_fails _ _ _ _ _ _ _ _ Hall Hbad).
    intros [= <- <-]. by repeat split.
Qed.

End IngestProperties.

(** ** Failures and successes of [ingest_pdf_documents] *)

Section IngestOutcomes.
Context {F : Type} `{Scalar F}.
Variable normalize_L2_raises : bool.
Variable adapters : @Adapters F.

(** X7: when a document cannot be processed, [ingest_pdf_documents] raises
    the exception of the first such document.  The documents before it
    were processed, those after it are not looked at, no embedding is
    requested, and the store, the disk and the flag are as they were: the
    chunks of the documents processed so far are dropped. *)
Theorem ingest_stops_at_first_bad_document
    (before after : list (list Byte.byte)) (bad : list Byte.byte)
    (per_doc : list (list string)) (e : exn) (w : World) :
  Forall2 (fun pdf chunks => process_pdf_content adapters pdf = Ok chunks)
          before per_doc ->
  process_pdf_content adapters bad = Raise e ->
  ingest_pdf_documents normalize_L2_raises adapters
                       (before ++ bad :: after) w
  = (Raise e, with_calls w (map CallProcessPdf (before ++ [bad]))).
Proof.
  intros Hall Hbad. unfold ingest_pdf_documents, mbind at 1, M_bind at 1.
  by rewrite (process_documents_fails _ _ _ _ _ _ _ _ _ Hall Hbad).
Qed.

(** X8: when every document is processed and the embedding call raises,
    [ingest_pdf_documents] raises the same exception after that one call
    and changes nothing else.  When the embedding call returns a vector of
    another width than the index's, it raises [AssertionError] from
    [add_embeddings]: no vector and no text is stored, nothing is saved
    and the flag is as it was. *)
Theorem ingest_embedding_failures (pdf_contents : list (list Byte.byte))
    (per_doc : list (list string)) (w : World) :
  Forall2 (fun pdf chunks => process_pdf_content adapters pdf = Ok chunks)
          pdf_contents per_doc ->
  (forall e,
     generate_embeddings adapters (concat per_doc) = Raise e ->
     ingest_pdf_documents normalize_L2_raises adapters pdf_contents w
     = (Raise e,
        with_calls w (map CallProcessPdf pdf_contents
                      ++ [CallGenerateEmbeddings (concat per_doc)]))) /\
  (forall E,
     generate_embeddings adapters (concat per_doc) = Ok E ->
     Exists (fun v => length v <> index_dimension (vector_store w)) E ->
     exists w',
       ingest_pdf_documents normalize_L2_raises adapters pdf_contents w
       = (Raise AssertionError, w') /\
       stored_vectors (vector_store w') = stored_vectors (vector_store w) /\
       texts (vector_store w') = texts (vector_store w) /\
       disk w' = disk w /\
       is_indexed w' = is_indexed w /\
       calls w' = calls w ++ map CallProcessPdf pdf_contents
                  ++ [CallGenerateEmbeddings (concat per_doc);
                      CallAddEmbeddings (concat per_doc)]).
Proof.
  intros Hall. split.
  - intros e Hemb. unfold ingest_pdf_documents, mbind at 1, M_bind at 1.
    rewrite (process_documents_ok _ _ _ _ _ _ Hall). simpl.
    step_pipeline. rewrite Hemb. simpl.
    unfold with_calls. simpl. do 2 f_equal. by rewrite <- !app_assoc.
  - intros E Hemb Hbadw.
    destruct (add_embeddings normalize_L2_raises (vector_store w) E
                             (concat per_doc)) as [o s'] eqn:Hadd.
    pose proof (add_embeddings_inversion _ _ _ _ _ _ Hadd)
      as (_ & _ & _ & _ & [(_ & Hok & _)|(-> & _ & Hsv & Hts)]).
    { exfalso. apply Exists_exists in Hbadw as (v & Hv & Hne).
      rewrite Forall_forall in Hok. by apply Hne, Hok. }
    unfold ingest_pdf_documents, mbind at 1, M_bind at 1.
    rewrite (process_documents_ok _ _ _ _ _ _ Hall). simpl.
    step_pipeline. rewrite Hemb. simpl. rewrite Hadd. simpl.
    eexists. split; [done|]. simpl. repeat split; try done.
    by rewrite <- !app_assoc.
Qed.

(** X9: an ingestion call that returns has processed every document once,
    in order, requested one embedding for the whole batch, added and
    saved once; the batch is the chunks of the documents in document
    order, it is what was appended to the texts of the store, and the
    reported counts are the number of documents, the length of the batch
    and the number of vectors the embedding call returned. *)
Theorem ingest_success_shape (pdf_contents : list (list Byte.byte))
    (w w' : World) (st : IngestStats) :
  ingest_pdf_documents normalize_L2_raises adapters pdf_contents w
  = (Ok st, w') ->
  exists per_doc E,
    Forall2 (fun pdf chunks => process_pdf_content adapters pdf = Ok chunks)
            pdf_contents per_doc /\
    generate_embeddings adapters (concat per_doc) = Ok E /\
    calls w' = calls w ++ map CallProcessPdf pdf_contents
               ++ [CallGenerateEmbeddings (concat per_doc);
                   CallAddEmbeddings (concat per_doc);
                   CallSaveIndex "pdf_faiss_index"] /\
    texts (vector_store w') = texts (vector_store w) ++ concat per_doc /\
    stored_vectors (vector_store w')
    = stored_vectors (vector_store w)
      ++ normalize_embeddings normalize_L2_raises E /\
    total_documents st = length pdf_contents /\
    total_chunks st = length (concat per_doc) /\
    stats_total_embeddings st = length E /\
    vector_store_stats st = get_stats (vector_store w').
Proof.
  intros Hrun.
  apply ingest_inversion in Hrun
    as [(? & ? & ? & ? & ? & _ & _ & _ & ? & _)
       |(per_doc & Hall & [(? & _ & ? & _)|(E & o & s' & HE & Hadd & Hend)])];
    try done.
  destruct o as [[]|e]; [|by destruct Hend].
  destruct Hend as [[= ->] ->].
  apply add_embeddings_inversion in Hadd
    as (_ & _ & _ & _ & [(_ & _ & Hsv & Hts)|(? & _)]); [|done].
  exists per_doc, E. by repeat split.
Qed.

End IngestOutcomes.

(** ** What every history of the pipeline keeps *)

Section HistoryProperties.
Context {F : Type} `{Scalar F}.
Variable normalize_L2_raises : bool.
Variable cfg : Config.
Variable adapters : @Adapters F.

(** [query] changes nothing in the world but the record of calls. *)
Lemma query_only_records (question : string) (top_k : Z) (w w' : World)
    (r : outcome QueryResult) :
  query normalize_L2_raises adapters question top_k w = (r, w') ->
  exists cs, w' = with_calls w cs.
Proof.
  unfold query.
  destruct (is_indexed w); simpl;
    [|intros [= <- <-]; exists []; by rewrite with_calls_nil].
  step_pipeline.
  destruct (generate_single_embedding adapters question) as [e|?]; simpl;
    [|intros [= <- <-]; by eexists].
  destruct (search _ _ _ _) as [[[|t ts] scores]|?]; simpl;
    [intros [= <- <-] | | intros [= <- <-]];
    try (eexists; unfold with_calls; simpl; by rewrite <- app_assoc).
  destruct (generate_response _ _ _) as [answer|?]; simpl;
    intros [= <- <-]; eexists; unfold with_calls; simpl;
    by rewrite <- !app_assoc.
Qed.


Lemma perform_well_formed (o : operation) (w : World) :
  well_formed cfg (vector_store w) ->
  well_formed cfg (vector_store (perform normalize_L2_raises cfg adapters o w)).
Proof.
  intros (Hd & Hi & Hv). destruct o as [pdf_contents|question top_k|]; simpl.
  - destruct (ingest_pdf_documents _ _ _ _) as [r w'] eqn:Hrun. simpl.
    apply ingest_inversion in Hrun
      as [(? & ? & ? & ? & ? & _ & _ & _ & _ & ->)
         |(per_doc & _ & [(? & _ & _ & ->)|(E & o & s' & _ & Hadd & Hend)])];
      try done.
    assert (vector_store w' = s') as ->.
    { destruct o; by destruct Hend as [_ ->]. }
    unfold well_formed.
    apply add_embeddings_inversion in Hadd
      as (Hd' & _ & Hi' & _ & [(_ & Hok & -> & _)|(_ & _ & -> & _)]);
      rewrite Hd', Hi'; repeat split; try done.
    apply Forall_app. split; [done|].
    apply normalize_embeddings_widths_Forall. by rewrite <- Hi.
  - destruct (query _ _ _ _ _) as [r w'] eqn:Hrun. simpl.
    by apply query_only_records in Hrun as [cs ->].
  - unfold well_formed, new_store, index_dimension, stored_vectors. simpl.
    by repeat split.
Qed.

Lemma perform_consistent (o : operation) (w : World) :
  count_contract adapters ->
  consistent (vector_store w) ->
  consistent (vector_store (perform normalize_L2_raises cfg adapters o w)).
Proof.
  intros Hcontract Hc. destruct o as [pdf_contents|question top_k|]; simpl.
  - destruct (ingest_pdf_documents _ _ _ _) as [r w'] eqn:Hrun. simpl.
    apply ingest_inversion in Hrun
      as [(? & ? & ? & ? & ? & _ & _ & _ & _ & ->)
         |(per_doc & _ & [(? & _ & _ & ->)|(E & o & s' & HE & Hadd & Hend)])];
      try done.
    assert (vector_store w' = s') as ->.
    { destruct o; by destruct Hend as [_ ->]. }
    apply Hcontract in HE. revert Hc. unfold consistent.
    rewrite !size_stored_vectors.
    apply add_embeddings_inversion in Hadd
      as (_ & _ & _ & _ & [(_ & _ & -> & ->)|(_ & _ & -> & ->)]); [|done].
    rewrite !length_app, normalize_embeddings_length. lia.
  - destruct (query _ _ _ _ _) as [r w'] eqn:Hrun. simpl.
    by apply query_only_records in Hrun as [cs ->].
  - done.
Qed.


(** What holds of a new pipeline and is kept by every operation holds
    after every history. *)
Lemma history_induction (P : World -> Prop) (ops : list operation)
    (fs : gmap string file) :
  P (new_pipeline cfg fs) ->
  (forall o w, P w -> P (perform normalize_L2_raises cfg adapters o w)) ->
  P (history normalize_L2_raises cfg adapters ops fs).
Proof.
  unfold history. intros Hinit Hstep.
  generalize dependent (new_pipeline cfg fs).
  induction ops as [|o ops IH]; intros w Hw; simpl; [done|].
  by apply IH, Hstep.
Qed.


(** X10: whatever the collaborators return and whatever the operations,
    the store of the pipeline and its index keep the configured dimension,
    and every stored vector has that length. *)
Theorem history_store_well_formed (ops : list operation)
    (fs : gmap string file) :
  well_formed cfg
    (vector_store (history normalize_L2_raises cfg adapters ops fs)).
Proof.
  apply (history_induction (fun w => well_formed cfg (vector_store w))).
  - unfold well_formed, new_store, index_dimension, stored_vectors. simpl.
    by repeat split.
  - intros o w. apply perform_well_formed.
Qed.


(** X12: if the embedding call returns one vector per chunk whenever it
    returns, the store of the pipeline has as many texts as vectors after
    every history, raising calls included. *)
Theorem history_store_consistent (ops : list operation)
    (fs : gmap string file) :
  count_contract adapters ->
  consistent (vector_store (history normalize_L2_raises cfg adapters ops fs)).
Proof.
  intros Hcontract.
  apply (history_induction (fun w => consistent (vector_store w))); [done|].
  intros o w. by apply perform_consistent.
Qed.


End HistoryProperties.

(** ** Outcomes of [query] on an indexed pipeline *)

Section QueryOutcomes.
Context {F : Type} `{Scalar F}.
Variable normalize_L2_raises : bool.
Variable adapters : @Adapters F.

(** X14: on an indexed pipeline whose store holds no vector (as after an
    ingestion that added no chunk), [query] returns the "no relevant
    context" dictionary after one embedding call and one search; the
    answer generator is not called. *)
Theorem query_no_context_on_empty_store (question : string) (top_k : Z)
    (w : World) (query_embedding : vector) :
  is_indexed w = true ->
  size (vector_store w) = 0%nat ->
  generate_single_embedding adapters question = Ok query_embedding ->
  query normalize_L2_raises adapters question top_k w
  = (Ok no_context_result,
     with_calls w [CallGenerateSingleEmbedding question; CallSearch top_k]).
Proof.
  intros Hidx Hsize Hemb. unfold query. rewrite Hidx. simpl.
  step_pipeline. rewrite Hemb. simpl.
  assert (Hsearch : search normalize_L2_raises (vector_store w)
                           query_embedding top_k = Ok ([], [])).
  { revert Hsize. unfold size, get_stats, search.
    destruct (index (vector_store w)); simpl; [|done]. by intros ->. }
  rewrite Hsearch. simpl. unfold with_calls. simpl.
  do 2 f_equal. by rewrite <- app_assoc.
Qed.

(** X15: [query] handles no exception.  On an indexed pipeline, what the
    embedding call, [search] or the answer generator raises leaves [query]
    as it is, after the calls made so far and none further; the store, the
    disk and the flag are untouched. *)
Theorem query_propagates_exceptions (question : string) (top_k : Z)
    (w : World) (e : exn) :
  is_indexed w = true ->
  (generate_single_embedding adapters question = Raise e ->
   query normalize_L2_raises adapters question top_k w
   = (Raise e, with_calls w [CallGenerateSingleEmbedding question])) /\
  (forall v,
     generate_single_embedding adapters question = Ok v ->
     search normalize_L2_raises (vector_store w) v top_k = Raise e ->
     query normalize_L2_raises adapters question top_k w
     = (Raise e,
        with_calls w [CallGenerateSingleEmbedding question;
                      CallSearch top_k])) /\
  (forall v t ts scores,
     generate_single_embedding adapters question = Ok v ->
     search normalize_L2_raises (vector_store w) v top_k
     = Ok (t :: ts, scores) ->
     generate_response adapters question (t :: ts) = Raise e ->
     query normalize_L2_raises adapters question top_k w
     = (Raise e,
        with_calls w [CallGenerateSingleEmbedding question;
                      CallSearch top_k;
                      CallGenerateResponse question (t :: ts)])).
Proof.
  intros Hidx. unfold query. rewrite Hidx. simpl. step_pipeline.
  split; [|split].
  - by intros ->.
  - intros v -> Hs. simpl. rewrite Hs. simpl. unfold with_calls. simpl.
    do 2 f_equal. by rewrite <- app_assoc.
  - intros v t ts scores -> Hs Hr. simpl. rewrite Hs. simpl. rewrite Hr.
    simpl. unfold with_calls. simpl. do 2 f_equal. by rewrite <- !app_assoc.
Qed.

End QueryOutcomes.

(** ** The PDF processor *)

Lemma string_app_assoc (a b c : string) : (a +:+ b) +:+ c = a +:+ (b +:+ c).
Proof.
  induction a as [|x a IH]; [done|].
  change (String x ((a +:+ b) +:+ c) = String x (a +:+ (b +:+ c))).
  by rewrite IH.
Qed.

Lemma string_app_nil (a : string) : a +:+ "" = a.
Proof.
  induction a as [|x a IH]; [done|].
  change (String x (a +:+ "") = String x a). by rewrite IH.
Qed.

Section PDFProcessorProperties.
Variable page_texts : list Byte.byte -> outcome (list string).
Variable process_document : string -> outcome (list string).
Variable str : exn -> string.

Lemma extract_loop (pages : list string) (text : string) :
  fold_left (fun text page => text +:+ (page +:+ PDFProcessor.newline))
            pages text
  = text +:+ foldr (fun page rest => page +:+ (PDFProcessor.newline +:+ rest))
                   "" pages.
Proof.
  revert text. induction pages as [|page pages IH]; intros text;
    cbn [fold_left foldr].
  - by rewrite string_app_nil.
  - rewrite IH. by rewrite !string_app_assoc.
Qed.

(** X16: [process_pdf_content] hands the document processor the texts of
    the pages in page order, each followed by a newline, and returns or
    raises what the document processor does; when the PDF library raises,
    the document processor is not called and the exception raised is an
    [Exception] whose message is "Error extracting text from PDF: "
    followed by the message of the original. *)
Theorem process_pdf_content_cases (pdf_content : list Byte.byte) :
  (forall pages,
     page_texts pdf_content = Ok pages ->
     PDFProcessor.process_pdf_content page_texts process_document str
                                      pdf_content
     = process_document
         (foldr (fun page rest => page +:+ (PDFProcessor.newline +:+ rest))
                "" pages)) /\
  (forall e,
     page_texts pdf_content = Raise e ->
     PDFProcessor.process_pdf_content page_texts process_document str
                                      pdf_content
     = Raise (Exception ("Error extracting text from PDF: " +:+ str e))).
Proof.
  unfold PDFProcessor.process_pdf_content, PDFProcessor.extract_text_from_pdf.
  split.
  - intros pages ->. simpl. by rewrite extract_loop.
  - by intros e ->.
Qed.

End PDFProcessorProperties.

(** ** The request handlers *)

Section ApiProperties.
Context {F : Type} `{Scalar F}.
Variable normalize_L2_raises : bool.
Variable cfg : Config.
Variable adapters : @Adapters F.
Variable str : Api.raised -> string.

(** X17: [POST /query-pdf] never answers with status 400.  The
    [HTTPException] with status 400 that the handler raises for a result
    with an [error] key is caught by its own [except Exception] and
    becomes status 500, so every failure has status 500; in particular a
    query on a pipeline that is not indexed gets status 500, with the
    message of the status-400 exception in its detail, and changes
    nothing.  A 200 response carries as many context chunks as it
    counts. *)
Theorem query_endpoint_statuses (request : Api.QueryRequest) (w : World) :
  (forall code detail w',
     Api.query_pdf_pipeline normalize_L2_raises adapters str request w
     = (Api.Failed code detail, w') ->
     code = 500%nat) /\
  (is_indexed w = false ->
   Api.query_pdf_pipeline normalize_L2_raises adapters str request w
   = (Api.Failed 500
        ("Query processing failed: "
         +:+ str (Api.HTTPException 400 "No index available")), w)) /\
  (forall body w',
     Api.query_pdf_pipeline normalize_L2_raises adapters str request w
     = (Api.Returned body, w') ->
     is_indexed w = true /\
     Api.context body <> [] /\
     Api.num_context_chunks body = length (Api.context body)).
Proof.
  unfold Api.query_pdf_pipeline, query.
  destruct (is_indexed w) eqn:Hidx; simpl.
  2: { split; [by intros ? ? ? [= <- _ _]|]. split; [done|]. done. }
  step_pipeline.
  destruct (generate_single_embedding adapters (Api.question request))
    as [e|?]; simpl.
  2: { split; [by intros ? ? ? [= <- _ _]|]. split; done. }
  destruct (search _ _ _ _) as [[[|t ts] scores]|?]; simpl.
  - split; [by intros ? ? ? [= <- _ _]|]. split; done.
  - destruct (generate_response _ _ _) as [answer|?]; simpl.
    + split; [done|]. split; [done|].
      intros body w' [= <- _]. simpl. by repeat split.
    + split; [by intros ? ? ? [= <- _ _]|]. split; done.
  - split; [by intros ? ? ? [= <- _ _]|]. split; done.
Qed.

Lemma read_uploads_all_pdf (files : list Api.UploadFile)
    (acc : list (list Byte.byte)) :
  Forall (fun file => Api.content_type file = "application/pdf") files ->
  Api.read_uploads files acc = inr (acc ++ map Api.content files).
Proof.
  intros Hall. revert acc. induction Hall as [|file files Hf _ IH];
    intros acc; simpl.
  - by rewrite app_nil_r.
  - rewrite Hf. simpl. by rewrite IH, <- app_assoc.
Qed.

Lemma read_uploads_non_pdf (before after : list Api.UploadFile)
    (bad : Api.UploadFile) (acc : list (list Byte.byte)) :
  Forall (fun file => Api.content_type file = "application/pdf") before ->
  Api.content_type bad <> "application/pdf" ->
  Api.read_uploads (before ++ bad :: after) acc
  = inl (Api.HTTPException 400
           ("File " +:+ (Api.filename bad +:+ " is not a PDF"))).
Proof.
  intros Hall Hbad. revert acc. induction Hall as [|file files Hf _ IH];
    intros acc; simpl.
  - apply String.eqb_neq in Hbad. by rewrite Hbad.
  - rewrite Hf. simpl. apply IH.
Qed.

(** X18: when an uploaded file is not declared as [application/pdf],
    [POST /ingest-pdf] answers with status 500, not 400: the
    [HTTPException] with status 400 is raised inside the [try] block and
    re-raised by [except Exception].  The detail names the first such
    file, and the pipeline is not called at all, also not for the PDF
    files that came before it. *)
Theorem ingest_endpoint_rejects_non_pdf
    (before after : list Api.UploadFile) (bad : Api.UploadFile) (w : World) :
  Forall (fun file => Api.content_type file = "application/pdf") before ->
  Api.content_type bad <> "application/pdf" ->
  Api.ingest_pdf_documents normalize_L2_raises adapters str
                           (before ++ bad :: after) w
  = (Api.Failed 500
       ("PDF document ingestion failed: "
        +:+ str (Api.HTTPException 400
                   ("File " +:+ (Api.filename bad +:+ " is not a PDF")))),
     w).
Proof.
  intros Hall Hbad. unfold Api.ingest_pdf_documents.
  by rewrite (read_uploads_non_pdf _ _ _ _ Hall Hbad).
Qed.

(** X19: when every uploaded file is declared as [application/pdf],
    [POST /ingest-pdf] passes the contents of all files to one ingestion
    call, in upload order; it answers 200 with the three counts of that
    call when it returns, and 500 when it raises, and the world is the
    one that call left. *)
Theorem ingest_endpoint_runs_one_ingestion (files : list Api.UploadFile)
    (w : World) :
  Forall (fun file => Api.content_type file = "application/pdf") files ->
  let run := ingest_pdf_documents normalize_L2_raises adapters
                                  (map Api.content files) w in
  snd (Api.ingest_pdf_documents normalize_L2_raises adapters str files w)
  = snd run /\
  match fst run with
  | Ok st =>
      fst (Api.ingest_pdf_documents normalize_L2_raises adapters str files w)
      = Api.Returned
          {| Api.total_documents := length files;
             Api.total_chunks := total_chunks st;
             Api.total_embeddings := stats_total_embeddings st |}
  | Raise e =>
      fst (Api.ingest_pdf_documents normalize_L2_raises adapters str files w)
      = Api.Failed 500 ("PDF document ingestion failed: "
                        +:+ str (Api.PyException e))
  end.
Proof.
  intros Hall. simpl. unfold Api.ingest_pdf_documents.
  rewrite (read_uploads_all_pdf _ _ Hall). simpl.
  destruct (ingest_pdf_documents normalize_L2_raises adapters
              (map Api.content files) w) as [[st|e] w'] eqn:Hrun; simpl.
  - apply ingest_inversion in Hrun
      as [(? & ? & ? & ? & ? & _ & _ & _ & ? & _)
         |(per_doc & _ & [(? & _ & ? & _)|(E & o & s' & _ & _ & Hend)])];
      try done.
    destruct o as [[]|?]; [|by destruct Hend].
    destruct Hend as [[= ->] _]. simpl. by rewrite length_map.
  - done.
Qed.

(** X20: [POST /reset-pdf] always answers 200, and every query that
    follows it, before another ingestion returns, is answered with status
    500. *)
Theorem reset_endpoint_then_query (request : Api.QueryRequest) (w : World) :
  let w' := snd (Api.reset_pdf_pipeline cfg str w) in
  fst (Api.reset_pdf_pipeline cfg str w)
  = Api.Returned "PDF Pipeline reset successfully" /\
  disk w' = disk w /\
  Api.query_pdf_pipeline normalize_L2_raises adapters str request w'
  = (Api.Failed 500
       ("Query processing failed: "
        +:+ str (Api.HTTPException 400 "No index available")), w').
Proof. by repeat split. Qed.

End ApiProperties.

(** ** From an unreadable upload to the response *)

Section EndToEnd.
Context {F : Type} `{Scalar F}.
Variable normalize_L2_raises : bool.
Variable adapters : @Adapters F.
Variable page_texts : list Byte.byte -> outcome (list string).
Variable process_document : string -> outcome (list string).
Variable exn_str : exn -> string.
Variable str : Api.raised -> string.

(** X21: with the PDF processor in place, when all uploaded files are
    declared as [application/pdf] and the PDF library cannot read one of
    them, [POST /ingest-pdf] answers with status 500 and a detail that
    carries the message of the extraction error of the first such file.
    The files before it were processed, but nothing of them is embedded or
    stored: the store, the disk and the flag are as they were. *)
Theorem ingest_endpoint_unreadable_pdf
    (before after : list Api.UploadFile) (bad : Api.UploadFile)
    (per_doc : list (list string)) (e : exn) (w : World) :
  let installed :=
    PDFProcessor.install page_texts process_document exn_str adapters in
  Forall (fun file => Api.content_type file = "application/pdf")
         (before ++ bad :: after) ->
  Forall2 (fun file chunks =>
             process_pdf_content installed (Api.content file) = Ok chunks)
          before per_doc ->
  page_texts (Api.content bad) = Raise e ->
  Api.ingest_pdf_documents normalize_L2_raises installed str
                           (before ++ bad :: after) w
  = (Api.Failed 500
       ("PDF document ingestion failed: "
        +:+ str (Api.PyException
                   (Exception ("Error extracting text from PDF: "
                               +:+ exn_str e)))),
     with_calls w (map CallProcessPdf
                       (map Api.content (before ++ [bad])))).
Proof.
  intros installed Hpdf Hall Hbad. unfold Api.ingest_pdf_documents.
  rewrite (read_uploads_all_pdf _ _ Hpdf). simpl.
  unfold ingest_pdf_documents, mbind at 1, M_bind at 1.
  rewrite !map_app. simpl.
  rewrite (process_documents_fails installed (map Api.content before)
             (map Api.content after) (Api.content bad) per_doc
             (Exception ("Error extracting text from PDF: " +:+ exn_str e))).
  - by rewrite map_app.
  - clear Hpdf. induction Hall; simpl; by constructor.
  - simpl. unfold PDFProcessor.process_pdf_content,
      PDFProcessor.extract_text_from_pdf. by rewrite Hbad.
Qed.

End EndToEnd.

(** ** The further properties on the example data *)

Lemma add_embeddings_keeps_consistent_witness :
  consistent twin_store /\
  length [[0; 1]] = length ["c"] /\
  consistent (snd (add_embeddings false twin_store [[0; 1]] ["c"])).
Proof.
  split; [reflexivity|]. split; [reflexivity|].
  apply (add_embeddings_keeps_consistent false twin_store [[0; 1]] ["c"]);
    reflexivity.
Defined.

Lemma add_embeddings_appends_only_witness :
  stored_vectors twin_store !! 1%nat = Some [1; 0] /\
  texts twin_store !! 1%nat = Some "b" /\
  stored_vectors (snd (add_embeddings false twin_store [[0; 1]] ["c"]))
    !! 1%nat = Some [1; 0] /\
  texts (snd (add_embeddings false twin_store [[0; 1]] ["c"]))
    !! 1%nat = Some "b".
Proof.
  split; [reflexivity|]. split; [reflexivity|]. split.
  - apply (proj1 (add_embeddings_appends_only false twin_store
                    [[0; 1]] ["c"]) 1%nat [1; 0]).
    reflexivity.
  - apply (proj1 (proj2 (add_embeddings_appends_only false twin_store
                           [[0; 1]] ["c"])) 1%nat "b").
    reflexivity.
Defined.

Lemma search_rejects_bad_arguments_witness :
  index twin_store = Some {| d := 2; xb := [[1; 0]; [1; 0]] |} /\
  search false twin_store [1; 0] 0 = Raise AssertionError /\
  search false twin_store [1; 0; 0] 1 = Raise AssertionError.
Proof.
  split; [reflexivity|]. split.
  - apply (search_rejects_bad_arguments false twin_store
             {| d := 2; xb := [[1; 0]; [1; 0]] |} [1; 0] 0);
      [reflexivity | discriminate | left; reflexivity].
  - apply (search_rejects_bad_arguments false twin_store
             {| d := 2; xb := [[1; 0]; [1; 0]] |} [1; 0; 0] 1);
      [reflexivity | discriminate | right; discriminate].
Defined.

Lemma search_pads_with_last_text_witness :
  last (texts twin_store) = Some "b" /\
  Z.of_nat (size twin_store) <= 5 < 100 /\
  exists (positions : list nat) (ranked_texts : list string)
         (ranked_scores : list Z),
    search false twin_store [1; 0] 5
    = Ok (ranked_texts ++ replicate (Z.to_nat 5 - 2)%nat "b",
          ranked_scores ++ replicate (Z.to_nat 5 - 2)%nat flowest) /\
    positions ≡ₚ seq 0 2 /\
    Forall2 (fun n t => texts twin_store !! n = Some t)
            positions ranked_texts /\
    Forall2 (fun n sc =>
               exists v, [[1; 0]; [1; 0]] !! n = Some v /\
                         sc = fvec_inner_product
                                (normalize_query false [1; 0]) v)
            positions ranked_scores /\
    ranked_texts ≡ₚ texts twin_store /\
    descending ranked_scores.
Proof.
  split; [reflexivity|]. split; [vm_compute; split; [discriminate|reflexivity]|].
  apply (search_pads_with_last_text false twin_store
           {| d := 2; xb := [[1; 0]; [1; 0]] |} [1; 0] 5 "b");
    [reflexivity | reflexivity | reflexivity | reflexivity
    | vm_compute; split; [discriminate|reflexivity]].
Defined.

Lemma get_stats_after_add_witness :
  index (new_store example_cfg : @FAISSVectorStore Z) = None /\
  total_texts (get_stats (new_store example_cfg : @FAISSVectorStore Z))
  = None /\
  total_texts
    (get_stats (snd (add_embeddings false (new_store example_cfg)
                                    [[1; 0; 0]] ["c"])))
  = Some (length (texts (snd (add_embeddings false (new_store example_cfg)
                                             [[1; 0; 0]] ["c"])))).
Proof.
  split; [reflexivity|]. split.
  - apply (proj2 (proj2 (proj2 (get_stats_after_add false
                                  (new_store example_cfg)
                                  [[1; 0; 0]] ["c"])))).
    reflexivity.
  - apply (proj1 (get_stats_after_add false (new_store example_cfg)
                    [[1; 0; 0]] ["c"])).
Defined.

Lemma load_index_failure_states_witness :
  broken_disk !! index_file "idx"
  = Some (IndexFile {| d := 2; xb := [[1; 0]; [0; 1]] |}) /\
  broken_disk !! texts_file "idx" = Some (OtherFile []) /\
  load_index (new_store example_cfg) (Some "idx") broken_disk
  = (false,
     set_index (new_store example_cfg) {| d := 2; xb := [[1; 0]; [0; 1]] |}) /\
  unindexed_disk !! index_file "idx" = Some NullIndexFile /\
  unindexed_disk !! texts_file "idx" = Some (PickleFile ["only"]) /\
  load_index twin_store (Some "idx") unindexed_disk
  = (false, set_texts (clear_index twin_store) ["only"]).
Proof.
  split; [reflexivity|]. split; [reflexivity|]. split.
  { apply (proj1 (proj2 (load_index_failure_states (new_store example_cfg)
                           (Some "idx") broken_disk
                           (IndexFile {| d := 2; xb := [[1; 0]; [0; 1]] |})
                           (OtherFile []) eq_refl eq_refl))
                 {| d := 2; xb := [[1; 0]; [0; 1]] |}
                 (Exception "pickle.load"));
      reflexivity. }
  split; [reflexivity|]. split; [reflexivity|].
  apply (proj2 (proj2 (proj2 (load_index_failure_states twin_store
                                (Some "idx") unindexed_disk
                                NullIndexFile (PickleFile ["only"])
                                eq_refl eq_refl))
                      eq_refl)
               ["only"]).
  reflexivity.
Defined.

Lemma save_index_writes_two_files_witness :
  index twin_store = Some {| d := 2; xb := [[1; 0]; [1; 0]] |} /\
  index (new_store example_cfg : @FAISSVectorStore Z) = None /\
  (exists fs',
     save_index twin_store (Some "other") mismatched_disk = (Ok (), fs') /\
     fs' !! index_file "other"
     = Some (IndexFile {| d := 2; xb := [[1; 0]; [1; 0]] |})) /\
  (exists fs',
     save_index (new_store example_cfg) (Some "other") mismatched_disk
     = (Ok (), fs') /\
     fs' !! index_file "other" = Some NullIndexFile).
Proof.
  split; [reflexivity|]. split; [reflexivity|]. split.
  - destruct (save_index_writes_two_files twin_store (Some "other")
                mismatched_disk) as (fs' & Hsave & Hix & _).
    exists fs'. split; [exact Hsave|]. apply Hix. reflexivity.
  - destruct (save_index_writes_two_files (new_store example_cfg)
                (Some "other") mismatched_disk) as (fs' & Hsave & _ & Hnone & _).
    exists fs'. split; [exact Hsave|]. apply Hnone. reflexivity.
Defined.

Lemma ingest_stops_at_first_bad_document_witness :
  process_pdf_content picky_adapters [] = Raise (Exception "empty document") /\
  ingest_pdf_documents false picky_adapters
                       ([example_pdf] ++ [] :: [example_pdf]) fresh_world
  = (Raise (Exception "empty document"),
     with_calls fresh_world (map CallProcessPdf ([example_pdf] ++ [[]]))).
Proof.
  split; [reflexivity|].
  apply (ingest_stops_at_first_bad_document false picky_adapters
           [example_pdf] [example_pdf] []
           [["chunk one"; "chunk two"]] (Exception "empty document")
           fresh_world);
    [repeat constructor | reflexivity].
Defined.

Lemma ingest_embedding_failures_witness :
  generate_embeddings silent_adapters (concat [["chunk one"; "chunk two"]])
  = Raise (Exception "quota exceeded") /\
  ingest_pdf_documents false silent_adapters [example_pdf] fresh_world
  = (Raise (Exception "quota exceeded"),
     with_calls fresh_world
       (map CallProcessPdf [example_pdf]
        ++ [CallGenerateEmbeddings (concat [["chunk one"; "chunk two"]])])) /\
  exists w',
    ingest_pdf_documents false wide_adapters [example_pdf] fresh_world
    = (Raise AssertionError, w') /\
    stored_vectors (vector_store w')
    = stored_vectors (vector_store fresh_world) /\
    texts (vector_store w') = texts (vector_store fresh_world) /\
    disk w' = disk fresh_world /\
    is_indexed w' = is_indexed fresh_world /\
    calls w' = calls fresh_world ++ map CallProcessPdf [example_pdf]
               ++ [CallGenerateEmbeddings
                     (concat [["chunk one"; "chunk two"]]);
                   CallAddEmbeddings (concat [["chunk one"; "chunk two"]])].
Proof.
  split; [reflexivity|]. split.
  - apply (proj1 (ingest_embedding_failures false silent_adapters
                    [example_pdf] [["chunk one"; "chunk two"]] fresh_world
                    ltac:(repeat constructor))).
    reflexivity.
  - apply (proj2 (ingest_embedding_failures false wide_adapters
                    [example_pdf] [["chunk one"; "chunk two"]] fresh_world
                    ltac:(repeat constructor))
                 [[1; 0; 0]; [1; 0; 0]]);
      [reflexivity | apply Exists_cons_hd; discriminate].
Defined.

Lemma ingest_success_shape_witness :
  ingest_pdf_documents false example_adapters [example_pdf] fresh_world
  = (Ok example_stats, indexed_world) /\
  exists per_doc E,
    Forall2 (fun pdf chunks =>
               process_pdf_content example_adapters pdf = Ok chunks)
            [example_pdf] per_doc /\
    generate_embeddings example_adapters (concat per_doc) = Ok E /\
    calls indexed_world
    = calls fresh_world ++ map CallProcessPdf [example_pdf]
      ++ [CallGenerateEmbeddings (concat per_doc);
          CallAddEmbeddings (concat per_doc);
          CallSaveIndex "pdf_faiss_index"] /\
    texts (vector_store indexed_world)
    = texts (vector_store fresh_world) ++ concat per_doc /\
    stored_vectors (vector_store indexed_world)
    = stored_vectors (vector_store fresh_world)
      ++ normalize_embeddings false E /\
    total_documents example_stats = length [example_pdf] /\
    total_chunks example_stats = length (concat per_doc) /\
    stats_total_embeddings example_stats = length E /\
    vector_store_stats example_stats
    = get_stats (vector_store indexed_world).
Proof.
  split; [reflexivity|].
  apply (ingest_success_shape false example_adapters [example_pdf]
           fresh_world indexed_world example_stats).
  reflexivity.
Defined.


Lemma example_adapters_count_contract : count_contract example_adapters.
Proof. intros chunks E [= <-]. by rewrite length_map. Qed.

Lemma history_store_consistent_witness :
  count_contract example_adapters /\
  consistent
    (vector_store (history false example_cfg example_adapters example_ops ∅)).
Proof.
  split; [exact example_adapters_count_contract|].
  apply (history_store_consistent false example_cfg example_adapters
           example_ops ∅).
  exact example_adapters_count_contract.
Defined.


Lemma query_no_context_on_empty_store_witness :
  is_indexed empty_indexed_world = true /\
  size (vector_store empty_indexed_world) = 0%nat /\
  query false example_adapters "What is X?" 5 empty_indexed_world
  = (Ok no_context_result,
     with_calls empty_indexed_world
       [CallGenerateSingleEmbedding "What is X?"; CallSearch 5]).
Proof.
  split; [reflexivity|]. split; [reflexivity|].
  apply (query_no_context_on_empty_store false example_adapters
           "What is X?" 5 empty_indexed_world [1; 0]);
    reflexivity.
Defined.

Lemma query_propagates_exceptions_witness :
  is_indexed indexed_world = true /\
  generate_single_embedding silent_adapters "What is X?"
  = Raise (Exception "quota exceeded") /\
  query false silent_adapters "What is X?" 5 indexed_world
  = (Raise (Exception "quota exceeded"),
     with_calls indexed_world [CallGenerateSingleEmbedding "What is X?"]) /\
  query false example_adapters "What is X?" 0 indexed_world
  = (Raise AssertionError,
     with_calls indexed_world
       [CallGenerateSingleEmbedding "What is X?"; CallSearch 0]).
Proof.
  split; [reflexivity|]. split; [reflexivity|]. split.
  - apply (proj1 (query_propagates_exceptions false silent_adapters
                    "What is X?" 5 indexed_world
                    (Exception "quota exceeded") eq_refl)).
    reflexivity.
  - apply (proj1 (proj2 (query_propagates_exceptions false example_adapters
                           "What is X?" 0 indexed_world
                           AssertionError eq_refl)) [1; 0]);
      reflexivity.
Defined.

Lemma process_pdf_content_cases_witness :
  example_page_texts example_pdf = Ok ["page one"; "page two"] /\
  example_page_texts [] = Raise (Exception "cannot open empty document") /\
  PDFProcessor.process_pdf_content example_page_texts
    example_process_document example_exn_str example_pdf
  = example_process_document
      ("page one" +:+ (PDFProcessor.newline
        +:+ ("page two" +:+ (PDFProcessor.newline +:+ "")))) /\
  PDFProcessor.process_pdf_content example_page_texts
    example_process_document example_exn_str []
  = Raise (Exception ("Error extracting text from PDF: "
                      +:+ "cannot open empty document")).
Proof.
  split; [reflexivity|]. split; [reflexivity|]. split.
  - apply (proj1 (process_pdf_content_cases example_page_texts
                    example_process_document example_exn_str example_pdf)
                 ["page one"; "page two"]).
    reflexivity.
  - apply (proj2 (process_pdf_content_cases example_page_texts
                    example_process_document example_exn_str [])
                 (Exception "cannot open empty document")).
    reflexivity.
Defined.

Lemma query_endpoint_statuses_witness :
  is_indexed fresh_world = false /\
  Api.query_pdf_pipeline false example_adapters example_str
    {| Api.question := "What is in the document?"; Api.top_k := 5 |}
    fresh_world
  = (Api.Failed 500
       ("Query processing failed: "
        +:+ example_str (Api.HTTPException 400 "No index available")),
     fresh_world).
Proof.
  split; [reflexivity|].
  apply (proj1 (proj2 (query_endpoint_statuses false example_adapters
                         example_str
                         {| Api.question := "What is in the document?";
                            Api.top_k := 5 |}
                         fresh_world))).
  reflexivity.
Defined.

Lemma ingest_endpoint_rejects_non_pdf_witness :
  Api.content_type text_upload <> "application/pdf" /\
  Api.ingest_pdf_documents false example_adapters example_str
    ([pdf_upload] ++ text_upload :: [pdf_upload]) fresh_world
  = (Api.Failed 500
       ("PDF document ingestion failed: "
        +:+ example_str
              (Api.HTTPException 400
                 ("File " +:+ (Api.filename text_upload
                               +:+ " is not a PDF")))),
     fresh_world).
Proof.
  split; [discriminate|].
  apply (ingest_endpoint_rejects_non_pdf false example_adapters example_str
           [pdf_upload] [pdf_upload] text_upload fresh_world);
    [repeat constructor | discriminate].
Defined.

Lemma ingest_endpoint_runs_one_ingestion_witness :
  Forall (fun file => Api.content_type file = "application/pdf")
         [pdf_upload; pdf_upload] /\
  snd (Api.ingest_pdf_documents false example_adapters example_str
         [pdf_upload; pdf_upload] fresh_world)
  = snd (ingest_pdf_documents false example_adapters
           (map Api.content [pdf_upload; pdf_upload]) fresh_world) /\
  match fst (ingest_pdf_documents false example_adapters
               (map Api.content [pdf_upload; pdf_upload]) fresh_world) with
  | Ok st =>
      fst (Api.ingest_pdf_documents false example_adapters example_str
             [pdf_upload; pdf_upload] fresh_world)
      = Api.Returned
          {| Api.total_documents := length [pdf_upload; pdf_upload];
             Api.total_chunks := total_chunks st;
             Api.total_embeddings := stats_total_embeddings st |}
  | Raise e =>
      fst (Api.ingest_pdf_documents false example_adapters example_str
             [pdf_upload; pdf_upload] fresh_world)
      = Api.Failed 500 ("PDF document ingestion failed: "
                        +:+ example_str (Api.PyException e))
  end.
Proof.
  split; [repeat constructor|].
  apply (ingest_endpoint_runs_one_ingestion false example_adapters
           example_str [pdf_upload; pdf_upload] fresh_world).
  repeat constructor.
Defined.

Lemma ingest_endpoint_unreadable_pdf_witness :
  example_page_texts (Api.content empty_upload)
  = Raise (Exception "cannot open empty document") /\
  Api.ingest_pdf_documents false
    (PDFProcessor.install example_page_texts example_process_document
                          example_exn_str example_adapters)
    example_str ([pdf_upload] ++ empty_upload :: []) fresh_world
  = (Api.Failed 500
       ("PDF document ingestion failed: "
        +:+ example_str
              (Api.PyException
                 (Exception ("Error extracting text from PDF: "
                             +:+ example_exn_str
                                   (Exception "cannot open empty document"))))),
     with_calls fresh_world
       (map CallProcessPdf
            (map Api.content ([pdf_upload] ++ [empty_upload])))).
Proof.
  split; [reflexivity|].
  eapply (ingest_endpoint_unreadable_pdf false example_adapters
            example_page_texts example_process_document example_exn_str
            example_str [pdf_upload] [] empty_upload _
            (Exception "cannot open empty document") fresh_world).
  - repeat constructor.
  - econstructor; [reflexivity | constructor].
  - reflexivity.
Defined.

(** ** [search] returns the best *)

#[global] Instance Z_scalar_transitive : ScalarTransitive Z.
Proof. split. intros a b c. cbn. lia. Qed.

Section SearchBest.
Context {F : Type} `{ScalarOrder F} `{!ScalarTransitive F}.
Variable normalize_L2_raises : bool.





End SearchBest.

